(** * Moltbot news crawler: a shallow embedding of [src/modules/moltbot]

    The pipeline of [main.py] (fetch, filter, analyse, summarise, notify) and
    the modules it is built from ([crawler.py], [filter.py], [analyzer.py],
    [connector.py]) as Rocq definitions, followed by the properties proved
    about them.

    Python [str] values are sequences of Unicode code points, so that [len],
    slices and the character ranges of the regular expressions mean what they
    mean in the source.  What the code obtains from libraries that are not part
    of the repository ([str.lower], the iteration order of a [set], [jieba],
    BeautifulSoup's parser, the HTTP transport) is a method of a type class and
    stays abstract; everything the repository itself computes is executable. *)

From Stdlib Require Import ZArith NArith Lia Ascii String.
From stdpp Require Import base option list strings gmap sorting.

Set Default Proof Using "Type".

(* ===================================================================== *)
(** * Python strings *)
(* ===================================================================== *)

Module Py.

(** A Unicode code point; [str] is a sequence of them. *)
Definition codepoint := N.
Definition str := list codepoint.

(** A literal of the source that is plain ASCII. *)
Definition lit (s : string) : str := N_of_ascii <$> list_ascii_of_string s.

(** [lo <= c <= hi], the character range [lo-hi] of a regular expression. *)
Definition in_range (lo hi : N) (c : codepoint) : bool :=
  ((lo <=? c) && (c <=? hi))%N.

Definition ascii_upper_letter : codepoint -> bool := in_range 65 90.   (* A-Z *)
Definition ascii_lower_letter : codepoint -> bool := in_range 97 122.  (* a-z *)
Definition ascii_letter (c : codepoint) : bool :=
  ascii_lower_letter c || ascii_upper_letter c.                         (* a-zA-Z *)
Definition cjk_ideograph : codepoint -> bool := in_range 0x4e00 0x9fff.

(** [str.isspace] on one character, which is also what [\s] matches in a
    [str] pattern: the characters of bidirectional type WS, B or S and of
    category Zs. *)
Definition isspace (c : codepoint) : bool :=
  in_range 0x09 0x0d c || in_range 0x1c 0x20 c
  || (c =? 0x85)%N || (c =? 0xa0)%N || (c =? 0x1680)%N
  || in_range 0x2000 0x200a c || (c =? 0x2028)%N || (c =? 0x2029)%N
  || (c =? 0x202f)%N || (c =? 0x205f)%N || (c =? 0x3000)%N.

(** [s.strip()] *)
Fixpoint lstrip (s : str) : str :=
  match s with
  | c :: s' => if isspace c then lstrip s' else s
  | [] => []
  end.
Definition rstrip (s : str) : str := reverse (lstrip (reverse s)).
Definition strip (s : str) : str := rstrip (lstrip s).

(** [sep.join(parts)] *)
Fixpoint join (sep : str) (parts : list str) : str :=
  match parts with
  | [] => []
  | [p] => p
  | p :: ps => p ++ sep ++ join sep ps
  end.

(** [f"{v}"] for a value annotated [Optional[str]]: [None] is printed as the
    word None. *)
Definition format_optional (v : option str) : str :=
  match v with
  | Some s => s
  | None => lit "None"
  end.

(** Truth value of an [Optional[str]]: [None] and the empty string are
    false. *)
Definition truthy (v : option str) : bool :=
  match v with
  | Some (_ :: _) => true
  | _ => false
  end.

(** [a or b] on [Optional[str]] values. *)
Definition or_else (a b : option str) : option str :=
  if truthy a then a else b.

(** [str.lower] restricted to the ASCII letters; it agrees with Python on
    text made of ASCII characters, CJK ideographs and kana. *)
Definition ascii_lower_char (c : codepoint) : codepoint :=
  if ascii_upper_letter c then (c + 32)%N else c.
Definition ascii_lower (s : str) : str := ascii_lower_char <$> s.

End Py.

(* ===================================================================== *)
(** * Regular expressions, as [re] matches them *)
(* ===================================================================== *)

Module Re.
Import Py.

(** The fragment of the pattern language the source uses.  [Repeat r lo hi]
    is the greedy [r{lo,hi}]; [Plus r] is the greedy [r+]. *)
Inductive regex :=
| Class (p : codepoint -> bool)
| Lit (s : str)
| Seq (r1 r2 : regex)
| Alt (r1 r2 : regex)
| Repeat (r : regex) (lo hi : nat)
| Plus (r : regex).

(** Strips [prefix] from the front of [s]. *)
Fixpoint strip_prefix (prefix s : str) : option str :=
  match prefix, s with
  | [], _ => Some s
  | p :: prefix', c :: s' => if (p =? c)%N then strip_prefix prefix' s' else None
  | _ :: _, [] => None
  end.

(** [iterate step n lo s]: the ways of matching between [lo] and [n] more
    rounds of [step] from [s], the longer ones first (greedy). *)
Fixpoint iterate (step : str -> list str) (n lo : nat) (s : str) : list str :=
  match n with
  | 0 => if decide (lo = 0) then [s] else []
  | S n' =>
      (s1 ← step s; iterate step n' (pred lo) s1)
      ++ (if decide (lo = 0) then [s] else [])
  end.

(** [matches r s]: what is left of [s] after a match of [r] at its start,
    one entry per way of matching, in the order a backtracking matcher tries
    them.  The head is the match [re] reports.  An iteration of [Plus] takes
    at least one character in every pattern of the source, so [length s]
    rounds bound it. *)
Fixpoint matches (r : regex) (s : str) : list str :=
  match r with
  | Class p =>
      match s with
      | c :: s' => if p c then [s'] else []
      | [] => []
      end
  | Lit l => option_list (strip_prefix l s)
  | Seq r1 r2 => s1 ← matches r1 s; matches r2 s1
  | Alt r1 r2 => matches r1 s ++ matches r2 s
  | Repeat r lo hi => iterate (matches r) hi lo s
  | Plus r => iterate (matches r) (length s) 1 s
  end.

(** Length of the match of [r] at the start of [s], if there is one. *)
Definition match_length (r : regex) (s : str) : option nat :=
  (λ rest, length s - length rest) <$> head (matches r s).

(** [findall_skip r skip s]: the matches in [s], not looking at its first
    [skip] characters (they belong to the match just reported). *)
Fixpoint findall_skip (r : regex) (skip : nat) (s : str) : list str :=
  match s with
  | [] => []
  | _ :: s' =>
      match skip with
      | S k => findall_skip r k s'
      | 0 =>
          match match_length r s with
          | Some (S n) => take (S n) s :: findall_skip r n s'
          | _ => findall_skip r 0 s'
          end
      end
  end.

(** [re.findall(r, s)] for a pattern without capturing groups and without
    empty matches: the matched substrings, left to right, not overlapping. *)
Definition findall (r : regex) (s : str) : list str := findall_skip r 0 s.

(** [sub_skip r repl skip s]: [s] with every match of [r] replaced by [repl],
    its first [skip] characters being part of the match just replaced. *)
Fixpoint sub_skip (r : regex) (repl : str) (skip : nat) (s : str) : str :=
  match s with
  | [] => []
  | c :: s' =>
      match skip with
      | S k => sub_skip r repl k s'
      | 0 =>
          match match_length r s with
          | Some (S n) => repl ++ sub_skip r repl n s'
          | _ => c :: sub_skip r repl 0 s'
          end
      end
  end.

(** [re.sub(r, repl, s)] for a pattern without empty matches and a
    replacement without group references. *)
Definition sub (r : regex) (repl s : str) : str := sub_skip r repl 0 s.

End Re.

(* ===================================================================== *)
(** * analyzer.py: keyword analysis *)
(* ===================================================================== *)

Module Analyzer.
Import Py Re.

(** What [analyzer.py] takes from outside the repository. *)
Class Env := {
  (** whether [import jieba] succeeded when the module was loaded *)
  JIEBA_AVAILABLE : bool;
  (** [list(jieba.cut(text))] *)
  jieba_cut : str -> list str;
  (** [str.lower] *)
  str_lower : str -> str;
  (** the characters [\d] matches in a [str] pattern: category Nd *)
  unicode_decimal : codepoint -> bool;
  (** [list(set(l))]: the elements of [l] in the iteration order of the set
      built from it, which Python leaves unspecified *)
  list_of_set : list str -> list str;
}.

(** dataclass [AnalysisResult] *)
Record AnalysisResult := {
  keywords : list (str * nat);
  total_words : nat;
  unique_words : nat;
  top_entities : list str;
}.

(** [KeywordAnalyzer.__init__]: the two settings, Python integers. *)
Record KeywordAnalyzer := {
  top_n : Z;
  min_word_length : Z;
}.
Definition default_analyzer : KeywordAnalyzer :=
  {| top_n := 20; min_word_length := 2 |}.

Local Open Scope N_scope.

(** The Chinese, Japanese and English entries of [STOP_WORDS], in the order
    of the source. *)
Definition STOP_WORDS_zh : list str :=
  [ [30340]; [20102]; [26159]; [22312]; [25105]; [26377];
    [21644]; [23601]; [19981]; [20154]; [37117]; [19968];
    [19968; 20491]; [19978]; [20063]; [24456]; [21040]; [35498];
    [35201]; [21435]; [20320]; [26371]; [33879]; [27794; 26377];
    [30475]; [22909]; [36889]; [37027]; [23565]; [33021];
    [22905]; [20182]; [23427]; [20497]; [28858]; [33287];
    [31561]; [34987]; [35731] ].
Definition STOP_WORDS_ja : list str :=
  [ [12398]; [12395]; [12399]; [12434]; [12383]; [12364];
    [12391]; [12390]; [12392]; [12375]; [12428]; [12373];
    [12354; 12427]; [12356; 12427]; [12418]; [12377; 12427];
    [12363; 12425]; [12394]; [12371; 12392]; [12392; 12375; 12390];
    [12356]; [12420]; [12394; 12393] ].
Definition STOP_WORDS_en : list str :=
  lit <$>
  [ "the"; "a"; "an"; "is"; "are"; "was"; "were"; "be"; "been"; "being";
    "have"; "has"; "had"; "do"; "does"; "did"; "will"; "would"; "could";
    "should"; "may"; "might"; "must"; "shall"; "can"; "need"; "dare";
    "to"; "of"; "in"; "for"; "on"; "with"; "at"; "by"; "from"; "as";
    "into"; "through"; "during"; "before"; "after"; "above"; "below";
    "and"; "but"; "or"; "nor"; "so"; "yet"; "both"; "either"; "neither";
    "this"; "that"; "these"; "those"; "i"; "you"; "he"; "she"; "it"; "we";
    "they" ]%string.

Definition STOP_WORDS : gset str :=
  list_to_set (STOP_WORDS_zh ++ STOP_WORDS_ja ++ STOP_WORDS_en).

(** Suffixes of the entity patterns: company, group, bank, enterprise;
    mister, madam, president, director. *)
Definition ORGANIZATION_SUFFIX : regex :=
  Alt (Lit [20844; 21496]) (Alt (Lit [38598; 22296])
    (Alt (Lit [37504; 34892]) (Lit [20225; 26989]))).
Definition HONORIFIC_SUFFIX : regex :=
  Alt (Lit [20808; 29983]) (Alt (Lit [22899; 22763])
    (Alt (Lit [32317; 35009]) (Lit [33891; 20107]))).

Local Close Scope N_scope.

(** [[A-Z][a-z]+] *)
Definition CAPITALIZED_WORD : regex :=
  Seq (Class ascii_upper_letter) (Plus (Class ascii_lower_letter)).

(** The three patterns of [_extract_entities], in the order of the source:
    [[A-Z][a-z]+(?:\s+[A-Z][a-z]+)+], then two to four ideographs before an
    organisation suffix, then two or three before an honorific. *)
Definition ENTITY_PATTERNS : list regex :=
  [ Seq CAPITALIZED_WORD (Plus (Seq (Plus (Class isspace)) CAPITALIZED_WORD));
    Seq (Repeat (Class cjk_ideograph) 2 4) ORGANIZATION_SUFFIX;
    Seq (Repeat (Class cjk_ideograph) 2 3) HONORIFIC_SUFFIX ].

(** [Counter]: a dict from element to count; a dict keeps its keys in the
    order they were first inserted, which [most_common] relies on. *)
Fixpoint count_element (w : str) (c : list (str * nat)) : list (str * nat) :=
  match c with
  | [] => [(w, 1)]
  | (k, n) :: c' =>
      if decide (k = w) then (k, S n) :: c' else (k, n) :: count_element w c'
  end.
Definition Counter (words : list str) : list (str * nat) :=
  foldl (λ c w, count_element w c) [] words.

(** [sorted(items, key=itemgetter(1), reverse=True)]: by count, largest
    first; the sort is stable, so equal counts keep their order. *)
Fixpoint insert_by_count (x : str * nat) (l : list (str * nat)) : list (str * nat) :=
  match l with
  | [] => [x]
  | y :: l' => if x.2 <? y.2 then y :: insert_by_count x l' else x :: y :: l'
  end.
Definition sorted_by_count (items : list (str * nat)) : list (str * nat) :=
  foldr insert_by_count [] items.

(** [Counter.most_common(n)] with [n] an integer: [heapq.nlargest], that is
    the first [n] entries of the sorted items, none when [n <= 0]. *)
Definition most_common (n : Z) (c : list (str * nat)) : list (str * nat) :=
  take (Z.to_nat n) (sorted_by_count c).

Section WithEnv.
Context `{Env}.

(** [[一-鿿]+|[a-zA-Z]+|\d+], the tokenizer without [jieba]. *)
Definition WORD_PATTERN : regex :=
  Alt (Plus (Class cjk_ideograph))
    (Alt (Plus (Class ascii_letter)) (Plus (Class unicode_decimal))).

(** The condition of the comprehension in [tokenize]. *)
Definition keeps (self : KeywordAnalyzer) (w : str) : Prop :=
  (min_word_length self ≤ Z.of_nat (length w))%Z ∧ (str_lower w ∉ STOP_WORDS).

#[export] Instance keeps_dec self w : Decision (keeps self w).
Proof. unfold keeps. apply and_dec; [apply Z_le_dec|apply not_dec, decide_rel, _]. Defined.

(** [KeywordAnalyzer.tokenize] *)
Definition tokenize (self : KeywordAnalyzer) (text : str) : list str :=
  let words :=
    if JIEBA_AVAILABLE then jieba_cut text else findall WORD_PATTERN text in
  str_lower <$> filter (keeps self) words.

(** The list [entities] of [_extract_entities] before [set] is applied. *)
Definition pooled_entities (text : str) : list str :=
  pattern ← ENTITY_PATTERNS; findall pattern text.

(** [KeywordAnalyzer._extract_entities] *)
Definition _extract_entities (text : str) : list str :=
  list_of_set (pooled_entities text).

(** What is known of [list(set(l))]: it holds each element of [l] once.
    The order is the set's. *)
Definition set_iteration : Prop :=
  ∀ l : list str,
    NoDup (list_of_set l)
    ∧ list_to_set (list_of_set l) =@{gset str} list_to_set l.

(** [KeywordAnalyzer.analyze] *)
Definition analyze (self : KeywordAnalyzer) (text : str) : AnalysisResult :=
  let words := tokenize self text in
  let word_counts := Counter words in
  let top_keywords := most_common (top_n self) word_counts in
  let entities := _extract_entities text in
  {| keywords := top_keywords;
     total_words := length words;
     unique_words := length word_counts;
     top_entities := take 10 entities |}.

End WithEnv.

(** Stable removal of duplicates: the first occurrence of each element is
    kept, in the order of first occurrences.  This is what the specification
    asks of the entity list; the source uses [set] instead. *)
Fixpoint stable_dedupe (l : list str) : list str :=
  match l with
  | [] => []
  | x :: l' => x :: filter (λ y, y ≠ x) (stable_dedupe l')
  end.

(** Two environments without [jieba], for running the analyzer: ASCII digits
    for [\d], ASCII lowering for [str.lower], and a set that happens to
    iterate in first-insertion order, or in the reverse of it. *)
Definition env_insertion_order : Env :=
  {| JIEBA_AVAILABLE := false;
     jieba_cut := λ _, [];
     str_lower := ascii_lower;
     unicode_decimal := in_range 48 57;
     list_of_set := stable_dedupe |}.
Definition env_reverse_order : Env :=
  {| JIEBA_AVAILABLE := false;
     jieba_cut := λ _, [];
     str_lower := ascii_lower;
     unicode_decimal := in_range 48 57;
     list_of_set := λ l, reverse (stable_dedupe l) |}.

(** [c[w]] on a [Counter]: the count stored for [w], 0 when [w] is no key. *)
Fixpoint getcount (c : list (str * nat)) (w : str) : nat :=
  match c with
  | [] => 0
  | (k, n) :: c' => if decide (k = w) then n else getcount c' w
  end.

(** [words.count(w)]: how many times [w] occurs in [words]. *)
Definition occurrences (w : str) (words : list str) : nat :=
  length (filter (λ x, x = w) words).

(** The characters the tokenizer without [jieba] builds words from. *)
Definition word_character `{Env} (c : codepoint) : bool :=
  cjk_ideograph c || ascii_letter c || unicode_decimal c.

End Analyzer.

(* ===================================================================== *)
(** * filter.py: from markup to title and paragraphs *)
(* ===================================================================== *)

Module Filter.
Import Py.

(** The parse tree BeautifulSoup builds.  A string is either a plain
    [NavigableString] or one of the kinds [get_text] leaves out (comments,
    declarations and the like).  A tag carries its name, the values of its
    [class] attribute when it has one, and its children. *)
#[warnings="-register-all"]
Inductive Node :=
| NavigableString (text : str)
| OtherString (text : str)
| Tag (name : str) (class_ : option (list str)) (contents : list Node).

(** What [filter.py] takes from outside the repository. *)
Class Env := {
  (** [BeautifulSoup(html, "html.parser")]: the top-level nodes *)
  html_parser : str -> list Node;
  (** [re.compile(pattern, re.I).search(s) is not None] *)
  re_search_ignorecase : str -> str -> bool;
}.

(** dataclass [FilteredContent] *)
Record FilteredContent := {
  title : str;
  body : str;
  paragraphs : list str;
  word_count : nat;
}.

(** [TextFilter.__init__] *)
Record TextFilter := { min_paragraph_length : Z }.
Definition default_filter : TextFilter := {| min_paragraph_length := 20 |}.

Definition REMOVE_TAGS : list str :=
  lit <$> [ "script"; "style"; "nav"; "header"; "footer";
            "aside"; "advertisement"; "iframe"; "noscript" ]%string.
Definition NOISE_CLASSES : list str :=
  lit <$> [ "ad"; "ads"; "advertisement"; "sidebar"; "menu";
            "navigation"; "footer"; "header"; "social"; "share" ]%string.

(** [for element in soup.find_all(...): element.decompose()]: every tag the
    search selects goes, with its subtree. *)
Fixpoint decompose_in (selected : str -> option (list str) -> bool)
    (node : Node) : option Node :=
  match node with
  | Tag name cls contents =>
      if selected name cls then None
      else Some (Tag name cls (omap (decompose_in selected) contents))
  | _ => Some node
  end.
Definition decompose_all (selected : str -> option (list str) -> bool)
    (nodes : list Node) : list Node :=
  omap (decompose_in selected) nodes.

(** [find_all]: the tags below the root that the search selects, in document
    order. *)
Fixpoint find_in (selected : str -> option (list str) -> bool)
    (node : Node) : list Node :=
  match node with
  | Tag name cls contents =>
      (if selected name cls then [node] else [])
      ++ (contents ≫= find_in selected)
  | _ => []
  end.
Definition find_all (selected : str -> option (list str) -> bool)
    (nodes : list Node) : list Node :=
  nodes ≫= find_in selected.

(** The plain strings at and below a node, in document order. *)
Fixpoint strings (node : Node) : list str :=
  match node with
  | NavigableString s => [s]
  | OtherString _ => []
  | Tag _ _ contents => contents ≫= strings
  end.

(** [tag.get_text(strip=True)]: each string stripped, the empty ones
    dropped, the rest joined with nothing in between. *)
Definition get_text_strip (node : Node) : str :=
  concat (filter (λ s, s ≠ []) (strip <$> strings node)).

(** Search by tag name: [find_all(name)], [find_all([name, ...])]. *)
Definition named (names : list str) : str -> option (list str) -> bool :=
  λ name _, bool_decide (name ∈ names).

Section WithEnv.
Context `{Env}.

(** Search by [class_=re.compile(class_name, re.I)]: the pattern is looked
    for in each value of the attribute, then in the values joined by
    spaces. *)
Definition class_like (class_name : str) : str -> option (list str) -> bool :=
  λ _ cls,
    match cls with
    | None => false
    | Some values =>
        existsb (re_search_ignorecase class_name) values
        || re_search_ignorecase class_name (join (lit " ") values)
    end.

(** [TextFilter.extract] *)
Definition extract (self : TextFilter) (html : str) : FilteredContent :=
  let soup := html_parser html in
  let soup := foldl (λ soup tag, decompose_all (named [tag]) soup) soup REMOVE_TAGS in
  let soup :=
    foldl (λ soup class_name, decompose_all (class_like class_name) soup)
      soup NOISE_CLASSES in
  let title_tag :=
    match head (find_all (named [lit "h1"]) soup) with
    | Some tag => Some tag
    | None => head (find_all (named [lit "title"]) soup)
    end in
  let title := default [] (get_text_strip <$> title_tag) in
  let paragraphs :=
    filter (λ text, (min_paragraph_length self ≤ Z.of_nat (length text))%Z)
      (get_text_strip <$> find_all (named [lit "p"; lit "article"]) soup) in
  let body := join [10; 10]%N paragraphs in
  {| title := title;
     body := body;
     paragraphs := paragraphs;
     word_count := length body |}.

End WithEnv.

(** [[\x00-\x1f\x7f-\x9f]], the control characters [clean_text] removes. *)
Definition control_character (c : codepoint) : bool :=
  in_range 0x00 0x1f c || in_range 0x7f 0x9f c.

(** [TextFilter.clean_text] *)
Definition clean_text (text : str) : str :=
  let text := Re.sub (Re.Plus (Re.Class isspace)) (lit " ") text in
  let text := Re.sub (Re.Class control_character) [] text in
  strip text.

(** Name and class attribute of every tag at and below a node, in document
    order. *)
Fixpoint tag_heads (node : Node) : list (str * option (list str)) :=
  match node with
  | Tag name cls contents => (name, cls) :: (contents ≫= tag_heads)
  | _ => []
  end.

(** The tree [extract] reads title and paragraphs from: the parse tree after
    its two removal loops. *)
Definition cleaned `{Env} (html : str) : list Node :=
  foldl (λ soup class_name, decompose_all (class_like class_name) soup)
    (foldl (λ soup tag, decompose_all (named [tag]) soup)
       (html_parser html) REMOVE_TAGS)
    NOISE_CLASSES.

End Filter.

(* ===================================================================== *)
(** * The outside world: HTTP requests and what comes back *)
(* ===================================================================== *)

Module Net.
Import Py.

(** The action of a quick-reply item. *)
Inductive Action :=
| PostbackAction (label data displayText : str)
| MessageAction (label text : str).

(** A quick-reply item, [{"type": "action", "action": ...}]. *)
Inductive QuickReplyItem :=
| ActionItem (action : Action).

(** The message objects [LINEMessagingConnector] builds. *)
Inductive LineMessage :=
| TextMessage (text : str)
| ImageMessage (originalContentUrl previewImageUrl : str)
| QuickReplyMessage (text : str) (items : list QuickReplyItem).

(** The JSON bodies the connectors post. *)
Inductive Body :=
| ChatCompletion (model : str) (messages : list (str * str))
| GenerateContent (text : str)
| DiscordBody (content : str)
| SlackBody (text : str)
| TelegramBody (chat_id text parse_mode : str)
| LinePush (to : str) (messages : list LineMessage).

Inductive Request :=
| GET (url : str) (headers : list (str * str)) (timeout : Z)
| POST (url : str) (bearer : option str) (json : Body) (timeout : Z).

(** Exceptions: [KeyError] with its key, [TypeError] with its message, and
    any other exception with the name of its class and its text. *)
Inductive PyException :=
| KeyError (key : string)
| TypeError (message : string)
| OtherException (class_name : string) (str_e : str).

(** A value that the program takes from a decoded JSON body and passes on
    without looking at its type: a [str], [None] (a JSON [null]), or any
    other value (a number, a boolean, an array, an object).  Of the last
    kind the program can only observe [str(v)], which is [shown], and
    whether the slice [v[:100]] evaluates (an array: no [slice_error]) or
    raises, and what. *)
Inductive Dyn :=
| DStr (s : str)
| DNone
| DOther (shown : str) (slice_error : option PyException).

(** [f"{v}"] *)
Definition format_value (v : Dyn) : str :=
  match v with
  | DStr s => s
  | DNone => lit "None"
  | DOther shown _ => shown
  end.

(** What [session.get] gives [NewsCrawler.fetch]: a response; a
    [requests.RequestException] with its text; or an exception of another
    class, as [requests] lets through from the libraries below it (a
    [LocationParseError] of urllib3 for some URLs, for one). *)
Inductive GetOutcome :=
| GetResponse (status_code : Z) (text : str)
| GetRaised (str_e : str)
| GetRaisedOther (e : PyException).

(** What the [try] block of an LLM connector's [generate] observes: an
    exception (from the transport, from [response.json()] or from a lookup in
    the decoded data) with its text; a body with an ["error"] entry and the
    value of its message; or a completion with the value of its content and,
    where the backend reports it, the token total (0 otherwise).  Message
    and content are whatever the body holds at that place: [generate] does
    not check them. *)
Inductive LLMOutcome :=
| LLMRaised (str_e : str)
| LLMErrorPayload (message : Dyn)
| LLMCompletion (content : Dyn) (total_tokens : Z).

(** What a webhook connector observes: an exception, or the status and text
    of the response. *)
Inductive WebhookOutcome :=
| WebhookRaised (str_e : str)
| WebhookResponse (status_code : Z) (text : str).

(** What [TelegramConnector.send] observes: an exception, or the decoded
    body's [ok] (false when absent), [str(result.message_id)] and
    [description]. *)
Inductive TelegramOutcome :=
| TelegramRaised (str_e : str)
| TelegramData (ok : bool) (message_id : str) (description : option str).

(** What [LINEMessagingConnector._send_messages] observes: an exception (also
    from decoding an error body), status 200, or another status with the
    error body's message (the response text when it has none). *)
Inductive LineOutcome :=
| LineRaised (str_e : str)
| LineOK
| LineError (message : str).

(** The world the program runs in.  A reply may depend on everything that
    was requested before. *)
Class World := {
  os_getenv : string -> option str;
  session_get : list Request -> Request -> GetOutcome;
  post_llm : list Request -> Request -> LLMOutcome;
  post_webhook : list Request -> Request -> WebhookOutcome;
  post_telegram : list Request -> Request -> TelegramOutcome;
  post_line : list Request -> Request -> LineOutcome;
}.

Inductive Result (A : Type) :=
| Returns (a : A)
| Raises (e : PyException).
Arguments Returns {A} a.
Arguments Raises {A} e.

(** A computation: from the requests sent so far to a result and the
    requests sent by the end. *)
Definition M (A : Type) : Type := list Request -> Result A * list Request.

#[export] Instance M_ret : MRet M := λ A a log, (Returns a, log).
#[export] Instance M_bind : MBind M := λ A B f m log,
  match m log with
  | (Returns a, log') => f a log'
  | (Raises e, log') => (Raises e, log')
  end.

Definition raise {A} (e : PyException) : M A := λ log, (Raises e, log).

(** Sends [req] and hands back what the world answers. *)
Definition send_request {O} (answer : list Request -> Request -> O)
    (req : Request) : M O :=
  λ log, (Returns (answer log req), log ++ [req]).

(** [d[key]] on a dict with string keys. *)
Definition getitem {V} (d : gmap string V) (key : string) : M V :=
  match d !! key with
  | Some v => mret v
  | None => raise (KeyError key)
  end.

(** The exception that evaluating [v[:100]] raises, when it raises: a
    string can be sliced, [None] cannot. *)
Definition slice_error (v : Dyn) : option PyException :=
  match v with
  | DStr _ => None
  | DNone => Some (TypeError "'NoneType' object is not subscriptable")
  | DOther _ e => e
  end.

(** [v[:100]], evaluated for a call of [print]: what it gives is written to
    the console and otherwise lost, but evaluating it raises when [v] cannot
    be sliced. *)
Definition getslice (v : Dyn) : M () :=
  match slice_error v with
  | None => mret ()
  | Some e => raise e
  end.

End Net.

(* ===================================================================== *)
(** * crawler.py *)
(* ===================================================================== *)

Module Crawler.
Import Py Net.

(** dataclass [CrawlResult] *)
Record CrawlResult := {
  url : str;
  html : str;
  status_code : Z;
  success : bool;
  error_message : option str;
}.

(** [NewsCrawler.__init__]: timeout and the headers of the session. *)
Record NewsCrawler := {
  timeout : Z;
  headers : list (str * str);
}.

Definition DEFAULT_HEADERS : list (str * str) :=
  [ (lit "User-Agent",
     lit "Mozilla/5.0 (Windows NT 10.0; Win64; x64) AppleWebKit/537.36 (KHTML, like Gecko) Chrome/120.0.0.0 Safari/537.36");
    (lit "Accept",
     lit "text/html,application/xhtml+xml,application/xml;q=0.9,image/webp,*/*;q=0.8");
    (lit "Accept-Language", lit "zh-TW,zh;q=0.9,en-US;q=0.8,en;q=0.7") ].

Definition default_crawler : NewsCrawler :=
  {| timeout := 30; headers := DEFAULT_HEADERS |}.

Section WithWorld.
Context `{World}.

(** [NewsCrawler.fetch]: the [except] clause is for
    [requests.RequestException]; an exception of another class leaves the
    function. *)
Definition fetch (self : NewsCrawler) (url : str) : M CrawlResult :=
  outcome ← send_request session_get (GET url (headers self) (timeout self));
  match outcome with
  | GetResponse status text =>
      mret {| url := url;
              html := text;
              status_code := status;
              success := bool_decide (status = 200%Z);
              error_message := None |}
  | GetRaised e =>
      mret {| url := url;
              html := [];
              status_code := 0;
              success := false;
              error_message := Some e |}
  | GetRaisedOther e => raise e
  end.

(** [NewsCrawler.fetch_multiple] *)
Definition fetch_multiple (self : NewsCrawler) (urls : list str)
    : M (list CrawlResult) :=
  mapM (fetch self) urls.

End WithWorld.

End Crawler.

(* ===================================================================== *)
(** * connector.py: language-model connectors *)
(* ===================================================================== *)

Module LLM.
Import Py Net.


(** dataclass [LLMResponse].  [content] and [error_message] are declared
    [str] and [Optional[str]]; they hold what [generate] puts there, which
    it does not check. *)
Record LLMResponse := {
  content : Dyn;
  model : str;
  tokens_used : Z;
  success : bool;
  error_message : Dyn;
}.

(** The fields the two connectors share: [api_key], [model], [base_url]. *)
Record Settings := {
  api_key : option str;
  model_name : str;
  base_url : str;
}.

Definition NOT_CONFIGURED : str := lit "API key not configured".

Local Open Scope N_scope.
(** The instruction [summarize] puts before the text: a request for a
    summary of about 100 characters in Traditional Chinese, ending in a
    full-width colon and two line feeds. *)
Definition SUMMARY_INSTRUCTION : str :=
  [ 35531; 29992; 32321; 39636; 20013; 25991; 31777; 35201; 25688; 35201;
    20197; 19979; 26032; 32862; 20839; 23481; 65288; 32004; 32; 49; 48; 48;
    32; 23383; 65289; 65306; 10; 10 ].
(** The prefix of a failed summary: four ideographs (summary failed), a
    colon and a space. *)
Definition SUMMARY_FAILED : str := [ 25688; 35201; 22833; 25943; 58; 32 ].
Local Close Scope N_scope.

Definition failure (self : Settings) (message : Dyn) : LLMResponse :=
  {| content := DStr []; model := model_name self; tokens_used := 0;
     success := false; error_message := message |}.

(** The abstract base class [BaseLLMConnector]. *)
Class BaseLLMConnector (C : Type) := {
  generate : C -> str -> option str -> M LLMResponse;
  summarize : C -> str -> M Dyn;
}.

(** What a method of the interface hands to its caller, a dynamically
    typed value: an [LLMResponse] object or a plain [str]. *)
Inductive Returned :=
| Response (r : LLMResponse)
| Text (s : str).

(** [value.success], for the values that have the attribute. *)
Definition success_flag (value : Returned) : option bool :=
  match value with
  | Response r => Some (success r)
  | Text _ => None
  end.

(** The prompt a request to a language model carries. *)
Definition prompt_of (req : Request) : option str :=
  match req with
  | POST _ _ (ChatCompletion _ messages) _ => snd <$> last messages
  | POST _ _ (GenerateContent text) _ => Some text
  | _ => None
  end.

(** The body both [summarize] methods share. *)
Definition summarize_with (generate : str -> option str -> M LLMResponse)
    (text : str) : M Dyn :=
  let prompt := SUMMARY_INSTRUCTION ++ text in
  result ← generate prompt None;
  mret (if success result then content result
        else DStr (SUMMARY_FAILED ++ format_value (error_message result))).

Section WithWorld.
Context `{World}.

(** class [OpenAIConnector] *)
Record OpenAIConnector := { openai : Settings }.


Definition OpenAIConnector_generate (self : OpenAIConnector) (prompt : str)
    (system_prompt : option str) : M LLMResponse :=
  let self := openai self in
  if negb (truthy (api_key self)) then mret (failure self (DStr NOT_CONFIGURED))
  else
    let messages :=
      (if truthy system_prompt
       then [(lit "system", default [] system_prompt)] else [])
      ++ [(lit "user", prompt)] in
    outcome ← send_request post_llm
      (POST (base_url self) (api_key self)
         (ChatCompletion (model_name self) messages) 60);
    mret
      match outcome with
      | LLMErrorPayload message => failure self message
      | LLMCompletion text total_tokens =>
          {| content := text; model := model_name self;
             tokens_used := total_tokens; success := true;
             error_message := DNone |}
      | LLMRaised e => failure self (DStr e)
      end.

#[export] Instance OpenAI_connector : BaseLLMConnector OpenAIConnector :=
  {| generate := OpenAIConnector_generate;
     summarize := λ self, summarize_with (OpenAIConnector_generate self) |}.

(** class [GeminiConnector] *)
Record GeminiConnector := { gemini : Settings }.


Definition GeminiConnector_generate (self : GeminiConnector) (prompt : str)
    (system_prompt : option str) : M LLMResponse :=
  let self := gemini self in
  if negb (truthy (api_key self)) then mret (failure self (DStr NOT_CONFIGURED))
  else
    let full_prompt :=
      if truthy system_prompt
      then default [] system_prompt ++ [10; 10]%N ++ prompt else prompt in
    outcome ← send_request post_llm
      (POST (base_url self ++ lit "?key=" ++ format_optional (api_key self))
         None (GenerateContent full_prompt) 60);
    mret
      match outcome with
      | LLMErrorPayload message => failure self message
      | LLMCompletion text _ =>
          {| content := text; model := model_name self;
             tokens_used := 0; success := true; error_message := DNone |}
      | LLMRaised e => failure self (DStr e)
      end.

#[export] Instance Gemini_connector : BaseLLMConnector GeminiConnector :=
  {| generate := GeminiConnector_generate;
     summarize := λ self, summarize_with (GeminiConnector_generate self) |}.

(** A connector object, as [create_llm_connector] hands it out: one of the
    two classes, used through the interface. *)
Inductive Connector :=
| OpenAI (c : OpenAIConnector)
| Gemini (c : GeminiConnector).

#[export] Instance Connector_connector : BaseLLMConnector Connector :=
  {| generate := λ self,
       match self with OpenAI c => generate c | Gemini c => generate c end;
     summarize := λ self,
       match self with OpenAI c => summarize c | Gemini c => summarize c end |}.


(** The settings of a connector object. *)
Definition settings (self : Connector) : Settings :=
  match self with OpenAI c => openai c | Gemini c => gemini c end.

End WithWorld.

End LLM.
(* ===================================================================== *)
(** * connector.py: messaging connectors *)
(* ===================================================================== *)

Module Messaging.
Import Py Net.


(** dataclass [MessageResult] *)
Record MessageResult := {
  platform : str;
  success : bool;
  message_id : option str;
  error_message : option str;
}.

Definition failed (platform : string) (message : str) : MessageResult :=
  {| platform := lit platform; success := false;
     message_id := None; error_message := Some message |}.

(** [response.ok]: no client or server error status. *)
Definition response_ok (status_code : Z) : bool :=
  negb (bool_decide (400 ≤ status_code < 600)%Z).

(** The abstract base class [BaseMessagingConnector]; [kwargs] are the
    keyword arguments of the call. *)
Class BaseMessagingConnector (C : Type) := {
  send : C -> str -> gmap string str -> M MessageResult;
}.

Record DiscordWebhookConnector := { discord_webhook_url : option str }.
Record SlackWebhookConnector := { slack_webhook_url : option str }.
Record TelegramConnector := { bot_token : option str; chat_id : option str }.
Record LINEMessagingConnector := {
  channel_access_token : option str;
  user_id : option str;
}.

Definition PUSH_API_URL : str := lit "https://api.line.me/v2/bot/message/push".

(** A connector object, as [create_messaging_connector] hands it out. *)
Inductive Connector :=
| Discord (c : DiscordWebhookConnector)
| Telegram (c : TelegramConnector)
| Slack (c : SlackWebhookConnector)
| Line (c : LINEMessagingConnector).

(** The text a request to a messaging platform carries: the [content] of a
    Discord body, the [text] of a Slack or Telegram body, the text of the
    message object of a LINE push that holds one. *)
Definition text_of (req : Request) : option str :=
  match req with
  | POST _ _ (DiscordBody content) _ => Some content
  | POST _ _ (SlackBody text) _ => Some text
  | POST _ _ (TelegramBody _ text _) _ => Some text
  | POST _ _ (LinePush _ [TextMessage text]) _ => Some text
  | POST _ _ (LinePush _ [QuickReplyMessage text _]) _ => Some text
  | _ => None
  end.

(** [MessagingPlatform.value] of the class of a connector object, the
    [platform] its results carry. *)
Definition platform_of (self : Connector) : str :=
  match self with
  | Discord _ => lit "discord"
  | Telegram _ => lit "telegram"
  | Slack _ => lit "slack"
  | Line _ => lit "line"
  end.

Section WithWorld.
Context `{World}.

(** [DiscordWebhookConnector.send] *)
Definition Discord_send (self : DiscordWebhookConnector) (message : str)
    (kwargs : gmap string str) : M MessageResult :=
  if negb (truthy (discord_webhook_url self))
  then mret (failed "discord" (lit "Webhook URL not configured"))
  else
    outcome ← send_request post_webhook
      (POST (format_optional (discord_webhook_url self)) None
         (DiscordBody message) 10);
    mret
      match outcome with
      | WebhookResponse status text =>
          {| platform := lit "discord";
             success := bool_decide (status ∈ [200; 204]%Z);
             message_id := None;
             error_message := if response_ok status then None else Some text |}
      | WebhookRaised e => failed "discord" e
      end.

(** [SlackWebhookConnector.send] *)
Definition Slack_send (self : SlackWebhookConnector) (message : str)
    (kwargs : gmap string str) : M MessageResult :=
  if negb (truthy (slack_webhook_url self))
  then mret (failed "slack" (lit "Webhook URL not configured"))
  else
    outcome ← send_request post_webhook
      (POST (format_optional (slack_webhook_url self)) None
         (SlackBody message) 10);
    mret
      match outcome with
      | WebhookResponse status text =>
          {| platform := lit "slack";
             success := bool_decide (status = 200%Z);
             message_id := None;
             error_message := if response_ok status then None else Some text |}
      | WebhookRaised e => failed "slack" e
      end.

(** [TelegramConnector.send] *)
Definition Telegram_send (self : TelegramConnector) (message : str)
    (kwargs : gmap string str) : M MessageResult :=
  if negb (truthy (bot_token self)) || negb (truthy (chat_id self))
  then mret (failed "telegram" (lit "Bot token or chat ID not configured"))
  else
    let url :=
      lit "https://api.telegram.org/bot" ++ format_optional (bot_token self)
      ++ lit "/sendMessage" in
    outcome ← send_request post_telegram
      (POST url None
         (TelegramBody (format_optional (chat_id self)) message (lit "HTML")) 10);
    mret
      match outcome with
      | TelegramData ok id description =>
          {| platform := lit "telegram"; success := ok;
             message_id := Some id; error_message := description |}
      | TelegramRaised e => failed "telegram" e
      end.

(** [LINEMessagingConnector._send_messages] *)
Definition _send_messages (self : LINEMessagingConnector)
    (messages : list LineMessage) (user_id' : option str) : M MessageResult :=
  let target_user := or_else user_id' (user_id self) in
  if negb (truthy (channel_access_token self))
  then mret (failed "line" (lit "LINE Channel Access Token not configured"))
  else if negb (truthy target_user)
  then mret (failed "line" (lit "LINE User ID not configured"))
  else
    outcome ← send_request post_line
      (POST PUSH_API_URL (channel_access_token self)
         (LinePush (format_optional target_user) messages) 10);
    mret
      match outcome with
      | LineOK =>
          {| platform := lit "line"; success := true;
             message_id := None; error_message := None |}
      | LineError message => failed "line" message
      | LineRaised e => failed "line" e
      end.

(** [LINEMessagingConnector.send] *)
Definition Line_send (self : LINEMessagingConnector) (message : str)
    (kwargs : gmap string str) : M MessageResult :=
  _send_messages self [TextMessage message] (kwargs !! "user_id").

(** [LINEMessagingConnector.send_to_group] *)
Definition send_to_group (self : LINEMessagingConnector) (message group_id : str)
    : M MessageResult :=
  Line_send self message {[ "user_id" := group_id ]}.

(** [LINEMessagingConnector.send_image] *)
Definition send_image (self : LINEMessagingConnector) (image_url : str)
    (preview_url : option str) (kwargs : gmap string str) : M MessageResult :=
  _send_messages self
    [ImageMessage image_url
       (format_optional (or_else preview_url (Some image_url)))]
    (kwargs !! "user_id").

(** The action item [send_with_quick_reply] builds from one option: a
    postback when the option has a ["data"] entry, else a message; in both
    cases [opt["label"]] is looked up and must be there. *)
Definition quick_reply_item (opt : gmap string str) : M QuickReplyItem :=
  if decide (is_Some (opt !! "data")) then
    label ← getitem opt "label";
    data ← getitem opt "data";
    mret (ActionItem
            (PostbackAction label data (default label (opt !! "display_text"))))
  else
    label ← getitem opt "label";
    mret (ActionItem (MessageAction label (default label (opt !! "text")))).

(** The item built from an option whose label is [label]. *)
Definition item_for (opt : gmap string str) (label : str) : QuickReplyItem :=
  match opt !! "data" with
  | Some data =>
      ActionItem
        (PostbackAction label data (default label (opt !! "display_text")))
  | None => ActionItem (MessageAction label (default label (opt !! "text")))
  end.

(** [LINEMessagingConnector.send_with_quick_reply] *)
Definition send_with_quick_reply (self : LINEMessagingConnector)
    (message : str) (options : list (gmap string str))
    (kwargs : gmap string str) : M MessageResult :=
  items ← mapM quick_reply_item (take 13 options);
  _send_messages self [QuickReplyMessage message items] (kwargs !! "user_id").

#[export] Instance Discord_connector : BaseMessagingConnector DiscordWebhookConnector :=
  {| send := Discord_send |}.
#[export] Instance Telegram_connector : BaseMessagingConnector TelegramConnector :=
  {| send := Telegram_send |}.
#[export] Instance Slack_connector : BaseMessagingConnector SlackWebhookConnector :=
  {| send := Slack_send |}.
#[export] Instance Line_connector : BaseMessagingConnector LINEMessagingConnector :=
  {| send := Line_send |}.
#[export] Instance Connector_connector : BaseMessagingConnector Connector :=
  {| send := λ self,
       match self with
       | Discord c => send c
       | Telegram c => send c
       | Slack c => send c
       | Line c => send c
       end |}.


End WithWorld.

End Messaging.

(* ===================================================================== *)
(** * main.py: the pipeline *)
(* ===================================================================== *)

Module Main.
Import Py Net.
#[local] Existing Instances LLM.Connector_connector Messaging.Connector_connector.

(** The values stored in the dict [process] returns: a string or whatever
    else [summarize] handed over, an [int], the list of keywords with their
    counts, a list of strings. *)
Inductive Value :=
| VDyn (v : Dyn)
| VInt (n : Z)
| VKeywords (l : list (str * nat))
| VList (l : list str).

(** A [str] as a value of the dict. *)
Definition VStr (s : str) : Value := VDyn (DStr s).

(** class [MoltbotNewsCrawler]: the five members [__init__] sets. *)
Record MoltbotNewsCrawler := {
  crawler : Crawler.NewsCrawler;
  filter : Filter.TextFilter;
  analyzer : Analyzer.KeywordAnalyzer;
  llm : LLM.Connector;
  messenger : option Messaging.Connector;
}.

Local Open Scope N_scope.
(** Prefix of the error of a failed fetch: four ideographs (crawl failed), a
    colon and a space. *)
Definition CRAWL_FAILED : str := [ 29228; 21462; 22833; 25943; 58; 32 ].
(** Start of the notification: the newspaper emoji and a space. *)
Definition NEWS_PREFIX : str := [ 128240; 32 ].
Local Close Scope N_scope.

(** The dict of the last [return] of [process]: url, title, summary, the
    first ten keywords, the entities and the number of tokens. *)
Definition full_report (url : str) (filtered : Filter.FilteredContent)
    (analysis : Analyzer.AnalysisResult) (summary : Dyn) : gmap string Value :=
  <[ "url" := VStr url ]>
  (<[ "title" := VStr (Filter.title filtered) ]>
  (<[ "summary" := VDyn summary ]>
  (<[ "keywords" := VKeywords (take 10 (Analyzer.keywords analysis)) ]>
  (<[ "entities" := VList (Analyzer.top_entities analysis) ]>
  (<[ "word_count" := VInt (Z.of_nat (Analyzer.total_words analysis)) ]>
   ∅))))).

Section WithWorld.
Context `{World, Analyzer.Env, Filter.Env}.


(** [MoltbotNewsCrawler.process].  The calls of [print] write to the
    console and are left out, but for the one whose argument can raise when
    it is evaluated: the slice [summary[:100]] of Step 4. *)
Definition process (self : MoltbotNewsCrawler) (url : str)
    (send_notification : bool) : M (gmap string Value) :=
  (* Step 1 *)
  crawl_result ← Crawler.fetch (crawler self) url;
  if negb (Crawler.success crawl_result) then
    mret {[ "error" :=
              VStr (CRAWL_FAILED
                    ++ format_optional (Crawler.error_message crawl_result)) ]}
  else
    (* Step 2 *)
    let filtered := Filter.extract (filter self) (Crawler.html crawl_result) in
    (* Step 3 *)
    let analysis := Analyzer.analyze (analyzer self) (Filter.body filtered) in
    (* Step 4 *)
    summary ← LLM.summarize (llm self) (take 3000 (Filter.body filtered));
    getslice summary;;
    (* Step 5 *)
    (match messenger self with
     | Some messenger =>
         if send_notification then
           let message :=
             NEWS_PREFIX ++ Filter.title filtered ++ [10; 10]%N
             ++ format_value summary in
           Messaging.send messenger message ∅;; mret ()
         else mret ()
     | None => mret ()
     end);;
    mret (full_report url filtered analysis summary).

End WithWorld.

End Main.
(* ===================================================================== *)
(** * Small worlds to run the program in *)
(* ===================================================================== *)

Module Demo.
Import Py Net.

(** A world without environment variables that answers every fetch with
    [get] and every summarisation request with [llm]; notifications go
    through. *)
Definition world (get : GetOutcome) (llm : LLMOutcome) : World :=
  {| os_getenv := λ _, None;
     session_get := λ _ _, get;
     post_llm := λ _ _, llm;
     post_webhook := λ _ _, WebhookResponse 204 [];
     post_telegram := λ _ _, TelegramData true (lit "1") None;
     post_line := λ _ _, LineOK |}.

(** A parser for pages that are one paragraph of text and nothing else. *)
Definition one_paragraph : Filter.Env :=
  {| Filter.html_parser := λ html,
       [Filter.Tag (lit "p") None [Filter.NavigableString html]];
     Filter.re_search_ignorecase := λ _ _, false |}.

Definition EXAMPLE_URL : str := lit "https://news.example/article".

(** A pipeline with a Gemini connector that has the key [key]. *)
Definition bot (key : option str) (messenger : option Messaging.Connector)
    : Main.MoltbotNewsCrawler :=
  {| Main.crawler := Crawler.default_crawler;
     Main.filter := Filter.default_filter;
     Main.analyzer := Analyzer.default_analyzer;
     Main.llm :=
       LLM.Gemini
         {| LLM.gemini :=
              {| LLM.api_key := key;
                 LLM.model_name := lit "gemini-2.0-flash";
                 LLM.base_url := lit "https://llm.example/generate" |} |};
     Main.messenger := messenger |}.

(** A LINE connector with a token and a recipient. *)
Definition line : Messaging.LINEMessagingConnector :=
  {| Messaging.channel_access_token := Some (lit "token");
     Messaging.user_id := Some (lit "U1") |}.

(** Fifteen quick-reply options, labelled A to O; every third one carries
    postback data. *)
Definition fifteen_options : list (gmap string str) :=
  (λ i : nat,
     let label := [N.of_nat (65 + i)] in
     if decide (i `mod` 3 = 0)
     then {[ "label" := label; "data" := lit "action=" ++ label ]}
     else {[ "label" := label ]}) <$> seq 0 15.

(** A world whose fetches time out. *)
Definition timeout_world : World :=
  world (GetRaised (lit "timeout")) (LLMRaised (lit "unreachable")).

(** What [fetch] returns there, and the one request it sends. *)
Definition timeout_result : Crawler.CrawlResult :=
  {| Crawler.url := EXAMPLE_URL; Crawler.html := []; Crawler.status_code := 0;
     Crawler.success := false; Crawler.error_message := Some (lit "timeout") |}.
Definition fetch_log : list Request :=
  [GET EXAMPLE_URL Crawler.DEFAULT_HEADERS 30].

(** A world whose pages are one word 700 times over, 3500 characters, and
    whose language model answers every prompt with [ok]. *)
Definition long_page : str := concat (replicate 700 (lit "news ")).
Definition long_page_world : World :=
  world (GetResponse 200 long_page) (LLMCompletion (DStr (lit "ok")) 7).
Definition long_page_result : Crawler.CrawlResult :=
  {| Crawler.url := EXAMPLE_URL; Crawler.html := long_page;
     Crawler.status_code := 200; Crawler.success := true;
     Crawler.error_message := None |}.

Definition TWO_NAMES : str := lit "John Smith met Mary Jones".

(** An OpenAI connector with a key, and a pipeline around it. *)
Definition openai : LLM.Connector :=
  LLM.OpenAI
    {| LLM.openai :=
         {| LLM.api_key := Some (lit "key");
            LLM.model_name := lit "gpt-4o-mini";
            LLM.base_url := lit "https://api.openai.com/v1/chat/completions" |} |}.
Definition openai_bot : Main.MoltbotNewsCrawler :=
  {| Main.crawler := Crawler.default_crawler;
     Main.filter := Filter.default_filter;
     Main.analyzer := Analyzer.default_analyzer;
     Main.llm := openai;
     Main.messenger := None |}.

(** A world whose language model answers every prompt with a completion
    whose content is [null], as a chat completion without text is. *)
Definition null_content_world : World :=
  world (GetResponse 200 long_page) (LLMCompletion DNone 0).

(** A URL whose host has a label of 64 characters, and a world in which
    [session.get] raises what urllib3 raises for such a host, a
    [LocationParseError], which is no [RequestException]. *)
Definition LONG_LABEL_URL : str :=
  lit "http://" ++ replicate 64 97%N ++ lit ".com".
Definition LONG_LABEL_ERROR : PyException :=
  OtherException "LocationParseError"
    (lit "Failed to parse: '" ++ replicate 64 97%N
     ++ lit ".com', label empty or too long").
Definition long_label_world : World :=
  world (GetRaisedOther LONG_LABEL_ERROR) (LLMRaised []).

End Demo.

(* ===================================================================== *)
(** * Properties of the keyword analyzer *)
(* ===================================================================== *)

Section AnalyzerProperties.
Import Py Re Analyzer.
Context `{Env}.

Lemma count_element_key w c x n :
  (x, n) ∈ count_element w c → x = w ∨ ∃ m, (x, m) ∈ c.
Proof.
  induction c as [|[k m] c IH]; simpl.
  - intros Hin%list_elem_of_singleton. left. congruence.
  - destruct (decide (k = w)) as [->|Hne].
    + intros [Heq|Hin]%elem_of_cons.
      * left. congruence.
      * right. exists n. by apply list_elem_of_further.
    + intros [[= -> ->]|Hin]%elem_of_cons.
      * right. exists m. apply list_elem_of_here.
      * destruct (IH Hin) as [->|[m' Hm']]; [by left|].
        right. exists m'. by apply list_elem_of_further.
Qed.

Lemma Counter_from_key words acc x n :
  (x, n) ∈ foldl (λ c w, count_element w c) acc words →
  x ∈ words ∨ ∃ m, (x, m) ∈ acc.
Proof.
  revert acc n. induction words as [|w words IH]; intros acc n; simpl.
  - intros Hin. right. by exists n.
  - intros Hin. destruct (IH _ _ Hin) as [Hw|[m Hm]].
    + left. by apply list_elem_of_further.
    + destruct (count_element_key _ _ _ _ Hm) as [->|Hacc].
      * left. apply list_elem_of_here.
      * by right.
Qed.

(** Every key of a [Counter] is one of the counted elements. *)
Lemma Counter_key words x n : (x, n) ∈ Counter words → x ∈ words.
Proof.
  intros Hin. destruct (Counter_from_key _ _ _ _ Hin) as [?|[m Hm]]; [done|].
  by apply elem_of_nil in Hm.
Qed.

Lemma insert_by_count_perm x l : insert_by_count x l ≡ₚ x :: l.
Proof.
  induction l as [|y l IH]; simpl; [done|].
  destruct (x.2 <? y.2); [|done].
  rewrite IH. apply Permutation_swap.
Qed.

(** Sorting rearranges the items and nothing else. *)
Lemma sorted_by_count_perm items : sorted_by_count items ≡ₚ items.
Proof.
  induction items as [|x items IH]; simpl; [done|].
  by rewrite insert_by_count_perm, IH.
Qed.

Lemma insert_by_count_sorted x l :
  Sorted (λ a b, b.2 ≤ a.2) l → Sorted (λ a b, b.2 ≤ a.2) (insert_by_count x l).
Proof.
  induction 1 as [|y l Hl IH Hhd]; simpl.
  - repeat constructor.
  - destruct (x.2 <? y.2) eqn:Hlt.
    + apply Nat.ltb_lt in Hlt. constructor; [done|].
      destruct Hhd as [|z l Hz]; simpl.
      * constructor. lia.
      * destruct (x.2 <? z.2); constructor; [done|lia].
    + apply Nat.ltb_ge in Hlt. constructor; [by constructor|].
      constructor. done.
Qed.

(** The items come out with the counts going down. *)
Lemma sorted_by_count_sorted items :
  Sorted (λ a b, b.2 ≤ a.2) (sorted_by_count items).
Proof.
  induction items as [|x items IH]; simpl; [constructor|].
  by apply insert_by_count_sorted.
Qed.

Lemma most_common_length n c : (0 ≤ n)%Z → (Z.of_nat (length (most_common n c)) ≤ n)%Z.
Proof.
  intros Hn. unfold most_common. rewrite length_take. lia.
Qed.

Lemma most_common_subseteq n c : most_common n c ⊆ c.
Proof.
  unfold most_common. intros x Hx%subseteq_take.
  by rewrite sorted_by_count_perm in Hx.
Qed.

Lemma take_sorted {A} (R : relation A) n l : Sorted R l → Sorted R (take n l).
Proof.
  intros Hl. revert n. induction Hl as [|x l Hl IH Hhd]; intros [|n]; simpl;
    try constructor.
  - apply IH.
  - destruct Hhd as [|y l Hy]; destruct n; simpl; by constructor.
Qed.

(** The keywords of a result are ranked: no count is followed by a larger
    one. *)
Lemma analyze_keywords_ranked self text :
  Sorted (λ a b, b.2 ≤ a.2) (keywords (analyze self text)).
Proof. apply take_sorted, sorted_by_count_sorted. Qed.

(** A token is the lower-cased form of a word that passed the test of the
    comprehension. *)
Lemma tokenize_token self text t :
  t ∈ tokenize self text → ∃ w, t = str_lower w ∧ keeps self w.
Proof.
  unfold tokenize. intros (w & -> & Hw)%list_elem_of_fmap.
  apply list_elem_of_filter in Hw as [Hkeep _]. by exists w.
Qed.

(** C8.  For every text, the ranked keywords [analyze] returns are at most
    [top_n] (a count, so not negative), and each of their terms is the
    lower-cased form of a word that is no stop-word and has at least
    [min_word_length] characters; lower-casing never shortens a string, so
    the term itself is no stop-word and is no shorter than
    [min_word_length]. *)
Theorem analyze_keywords_ranked_and_filtered self text :
  (0 ≤ top_n self)%Z →
  (∀ w, length w ≤ length (str_lower w)) →
  (Z.of_nat (length (keywords (analyze self text))) ≤ top_n self)%Z
  ∧ (∀ term count, (term, count) ∈ keywords (analyze self text) →
      (term ∉ STOP_WORDS)
      ∧ (min_word_length self ≤ Z.of_nat (length term))%Z).
Proof.
  intros Hn Hlower. split.
  - by apply most_common_length.
  - intros term count Hin. simpl in Hin.
    apply most_common_subseteq, Counter_key, tokenize_token in Hin
      as (w & -> & Hlen & Hstop).
    split; [done|]. specialize (Hlower w). lia.
Qed.

Lemma stable_dedupe_elem l x : x ∈ stable_dedupe l ↔ x ∈ l.
Proof.
  induction l as [|a l IH]; simpl; [done|].
  rewrite !elem_of_cons, list_elem_of_filter, IH.
  destruct (decide (x = a)) as [->|Hne]; [by split; left|].
  split; [intros [?|[_ ?]]|intros [?|?]]; auto.
Qed.

Lemma stable_dedupe_NoDup l : NoDup (stable_dedupe l).
Proof.
  induction l as [|a l IH]; simpl; [constructor|].
  constructor; [|by apply NoDup_filter].
  rewrite list_elem_of_filter. by intros [Hne _].
Qed.

(** Whatever order the set iterates in, it is a rearrangement of the stable
    deduplication. *)
Lemma list_of_set_perm l : set_iteration → list_of_set l ≡ₚ stable_dedupe l.
Proof.
  intros Hset. destruct (Hset l) as [Hnd Heq].
  apply NoDup_Permutation; [done|apply stable_dedupe_NoDup|].
  intros x. rewrite stable_dedupe_elem.
  rewrite <-(elem_of_list_to_set (C:=gset str) x (list_of_set l)), Heq.
  apply elem_of_list_to_set.
Qed.

(** C2, as amended.  The entities pooled from the three patterns go through
    a set: [top_entities] is the first 10 elements of the set's iteration
    order, so it has no duplicates, at most 10 elements, each of them a
    pooled match; and when the text has at most 10 distinct matches,
    [top_entities] holds exactly the elements of the stable deduplication,
    each once, in some order. *)
Theorem analyze_entities_set_dedupe self text :
  set_iteration →
  top_entities (analyze self text) = take 10 (list_of_set (pooled_entities text))
  ∧ NoDup (top_entities (analyze self text))
  ∧ length (top_entities (analyze self text)) ≤ 10
  ∧ (∀ e, e ∈ top_entities (analyze self text) → e ∈ pooled_entities text)
  ∧ (length (stable_dedupe (pooled_entities text)) ≤ 10 →
     top_entities (analyze self text) ≡ₚ stable_dedupe (pooled_entities text)).
Proof.
  intros Hset. simpl. unfold _extract_entities.
  pose proof (list_of_set_perm (pooled_entities text) Hset) as Hperm.
  destruct (Hset (pooled_entities text)) as [Hnd _].
  split_and!.
  - done.
  - eapply sublist_NoDup; [done|apply sublist_take].
  - rewrite length_take. lia.
  - intros e He%subseteq_take. rewrite Hperm in He. by apply stable_dedupe_elem.
  - intros Hlen. rewrite take_ge; [done|]. by rewrite Hperm.
Qed.

End AnalyzerProperties.

(* ===================================================================== *)
(** * Properties of the filter *)
(* ===================================================================== *)

Section FilterProperties.
Import Py Filter.
Context `{Env}.

(** A paragraph passed the length test of the loop. *)
Lemma paragraph_passed_test self html p :
  p ∈ paragraphs (extract self html) →
  (min_paragraph_length self ≤ Z.of_nat (length p))%Z.
Proof.
  unfold extract. cbn [paragraphs].
  by intros [Hlen _]%list_elem_of_filter.
Qed.

(** C9.  For every markup, each paragraph [extract] returns has at least
    [min_paragraph_length] characters: 20 with the default filter. *)
Theorem extract_paragraphs_min_length self html :
  Forall (λ p, (min_paragraph_length self ≤ Z.of_nat (length p))%Z)
    (paragraphs (extract self html))
  ∧ Forall (λ p, 20 ≤ length p) (paragraphs (extract default_filter html)).
Proof.
  split; apply Forall_forall; intros p Hp%paragraph_passed_test.
  - done.
  - change (min_paragraph_length default_filter) with 20%Z in Hp. lia.
Qed.

(** The body is the paragraphs joined by two line feeds, and [word_count]
    its length. *)
Lemma extract_body self html :
  body (extract self html) = join [10; 10]%N (paragraphs (extract self html))
  ∧ word_count (extract self html) = length (body (extract self html)).
Proof. split; reflexivity. Qed.

End FilterProperties.

(* ===================================================================== *)
(** * Properties of the crawler *)
(* ===================================================================== *)

Section CrawlerProperties.
Import Py Net Crawler.
Context `{World}.

(** [fetch] sends one request; what it returns follows the answer, and an
    exception that is no [RequestException] leaves it. *)
Lemma fetch_run self url log :
  fetch self url log =
    (match session_get log (GET url (headers self) (timeout self)) with
     | GetResponse status text =>
         Returns
           {| url := url; html := text; status_code := status;
              success := bool_decide (status = 200%Z); error_message := None |}
     | GetRaised e =>
         Returns
           {| url := url; html := []; status_code := 0;
              success := false; error_message := Some e |}
     | GetRaisedOther e => Raises e
     end,
     log ++ [GET url (headers self) (timeout self)]).
Proof.
  unfold fetch, send_request, mbind, M_bind.
  by destruct (session_get _ _).
Qed.

(** C3, as amended.  Every result that [fetch] returns is for the URL asked
    for, with [success] true exactly when the status code is 200.  When the
    request raised a [RequestException], [success] is false, the status
    code is 0, [html] is empty and the error message is the exception's
    text; when a response came, [html] is its text and the status code its
    status, whatever they are, and there is no error message.  In both
    cases [fetch] does return; an exception of another class leaves it. *)
Theorem fetch_result_invariant self url log :
  (∀ r log',
     fetch self url log = (Returns r, log') →
     log' = log ++ [GET url (headers self) (timeout self)]
     ∧ Crawler.url r = url
     ∧ (success r = true ↔ status_code r = 200%Z)
     ∧ match session_get log (GET url (headers self) (timeout self)) with
       | GetRaised e =>
           success r = false ∧ status_code r = 0%Z ∧ html r = []
           ∧ error_message r = Some e
       | GetResponse status text =>
           status_code r = status ∧ html r = text ∧ error_message r = None
       | GetRaisedOther _ => False
       end)
  ∧ match session_get log (GET url (headers self) (timeout self)) with
    | GetRaisedOther e =>
        fetch self url log
        = (Raises e, log ++ [GET url (headers self) (timeout self)])
    | _ =>
        ∃ r, fetch self url log
             = (Returns r, log ++ [GET url (headers self) (timeout self)])
    end.
Proof.
  rewrite fetch_run. split.
  - intros r log'.
    destruct (session_get _ _) as [status text|e|e]; intros [= <- <-]; simpl.
    + split_and!; try done. apply bool_decide_eq_true.
    + split_and!; done.
  - destruct (session_get _ _); by eauto.
Qed.

End CrawlerProperties.

(** C3, counterexample.  A response with status 404 and a body gives a failed
    result whose [html] is not empty, and a response with status 200 and no
    body gives a successful result whose [html] is empty. *)
Lemma fetch_html_not_tied_to_success :
  (∃ r log,
     @Crawler.fetch
       (Demo.world (Net.GetResponse 404 (Py.lit "Not Found")) (Net.LLMRaised []))
       Crawler.default_crawler Demo.EXAMPLE_URL [] = (Net.Returns r, log)
     ∧ Crawler.success r = false ∧ Crawler.html r ≠ [])
  ∧ (∃ r log,
       @Crawler.fetch (Demo.world (Net.GetResponse 200 []) (Net.LLMRaised []))
         Crawler.default_crawler Demo.EXAMPLE_URL [] = (Net.Returns r, log)
       ∧ Crawler.success r = true ∧ Crawler.html r = []).
Proof.
  split; eexists _, _; (split; [reflexivity|]); simpl; done.
Qed.

(* ===================================================================== *)
(** * Properties of the connectors *)
(* ===================================================================== *)

Section MonadLaws.
Import Net.

(** How a bind runs: the first computation, then the second from the log
    the first one left, unless the first one raised. *)
Lemma bind_run {A B} (m : M A) (f : A → M B) log :
  (m ≫= f) log =
    match m log with
    | (Returns a, log') => f a log'
    | (Raises e, log') => (Raises e, log')
    end.
Proof. reflexivity. Qed.


End MonadLaws.

Section LLMProperties.
Import Py Net LLM.
Context `{World}.

(** Without a key, [generate] answers at once and sends nothing. *)
Lemma generate_without_key (self : Connector) prompt system_prompt log :
  truthy (api_key (settings self)) = false →
  generate self prompt system_prompt log
  = (Returns (failure (settings self) (DStr NOT_CONFIGURED)), log).
Proof.
  intros Hkey. destruct self as [[s]|[s]]; simpl in *.
  - unfold OpenAIConnector_generate. simpl. by rewrite Hkey.
  - unfold GeminiConnector_generate. simpl. by rewrite Hkey.
Qed.

(** With a key, [generate] sends one request whose prompt is the one it was
    given (no system prompt) and answers by what came back: a failure has
    the empty string for content, a success has no error message and for
    content the value the backend gave. *)
Lemma generate_with_key (self : Connector) prompt log :
  truthy (api_key (settings self)) = true →
  ∃ req result,
    generate self prompt None log = (Returns result, log ++ [req])
    ∧ prompt_of req = Some prompt
    ∧ (success result = false → content result = DStr [])
    ∧ (success result = true → error_message result = DNone)
    ∧ match post_llm log req with
      | LLMCompletion text _ => success result = true ∧ content result = text
      | LLMErrorPayload message =>
          success result = false ∧ error_message result = message
      | LLMRaised e => success result = false ∧ error_message result = DStr e
      end.
Proof.
  intros Hkey. destruct self as [[s]|[s]]; simpl in *.
  - unfold OpenAIConnector_generate. simpl. rewrite Hkey. simpl.
    rewrite bind_run. unfold send_request. eexists _, _.
    split; [reflexivity|]. split; [done|].
    destruct (post_llm _ _); simpl; by split_and!.
  - unfold GeminiConnector_generate. simpl. rewrite Hkey. simpl.
    rewrite bind_run. unfold send_request. eexists _, _.
    split; [reflexivity|]. split; [done|].
    destruct (post_llm _ _); simpl; by split_and!.
Qed.

(** [generate] never raises, a failure has the empty string for content,
    and a success has no error message. *)
Lemma generate_returns (self : Connector) prompt log :
  ∃ result log',
    generate self prompt None log = (Returns result, log')
    ∧ (success result = false → content result = DStr [])
    ∧ (success result = true → error_message result = DNone).
Proof.
  destruct (truthy (api_key (settings self))) eqn:Hkey.
  - destruct (generate_with_key self prompt log Hkey)
      as (req & result & ? & _ & ? & ? & _).
    by eexists _, _.
  - eexists _, _. split; [by apply generate_without_key|]. by split.
Qed.

(** [summarize] is [generate] on the instruction followed by the text, then
    a choice between the content and the failure text. *)
Lemma summarize_run (self : Connector) text log :
  summarize self text log =
    match generate self (SUMMARY_INSTRUCTION ++ text) None log with
    | (Returns result, log') =>
        (Returns (if success result then content result
                  else DStr (SUMMARY_FAILED
                             ++ format_value (error_message result))),
         log')
    | (Raises e, log') => (Raises e, log')
    end.
Proof. destruct self; reflexivity. Qed.

Lemma summarize_returns (self : Connector) text log :
  ∃ summary log', summarize self text log = (Returns summary, log').
Proof.
  rewrite summarize_run.
  destruct (generate_returns self (SUMMARY_INSTRUCTION ++ text) log)
    as (result & log' & -> & _).
  by eexists _, _.
Qed.

(** With a key, [summarize] sends one request, and its prompt is the
    instruction followed by the text [summarize] was given.  When the
    backend answers with a completion, the summary is the content of that
    completion, whatever it is. *)
Lemma summarize_request (self : Connector) text log :
  truthy (api_key (settings self)) = true →
  ∃ req summary,
    summarize self text log = (Returns summary, log ++ [req])
    ∧ prompt_of req = Some (SUMMARY_INSTRUCTION ++ text)
    ∧ (∀ content total_tokens,
         post_llm log req = LLMCompletion content total_tokens →
         summary = content).
Proof.
  intros Hkey. rewrite summarize_run.
  destruct (generate_with_key self (SUMMARY_INSTRUCTION ++ text) log Hkey)
    as (req & result & -> & Hprompt & _ & _ & Hanswer).
  eexists _, _. split; [done|]. split; [done|].
  intros content total_tokens Hllm. rewrite Hllm in Hanswer.
  destruct Hanswer as [-> <-]. done.
Qed.


(** C7, as amended.  For a connector without a credential (no key, or an
    empty one), [generate] returns the failure response: no content,
    [success] false, the message [API key not configured]; [summarize]
    returns a plain string, the failure prefix followed by that message.
    Neither sends a request: the log of requests is unchanged. *)
Theorem no_credential_no_request (self : Connector) prompt system_prompt text log :
  truthy (api_key (settings self)) = false →
  (∃ response,
     generate self prompt system_prompt log = (Returns response, log)
     ∧ success response = false
     ∧ content response = DStr []
     ∧ error_message response = DStr NOT_CONFIGURED)
  ∧ summarize self text log
    = (Returns (DStr (SUMMARY_FAILED ++ NOT_CONFIGURED)), log).
Proof.
  intros Hkey. split.
  - eexists. split; [by apply generate_without_key|done].
  - rewrite summarize_run, generate_without_key by done. reflexivity.
Qed.

(** What [summarize] returns, for every text: it returns, never raising.
    When [generate] succeeded the summary is the content of the response as
    it is, a string only if the backend's content is one; when [generate]
    failed it is a string, the failure prefix followed by the error message
    as an f-string shows it, which is not the empty string.  Without a
    credential that message is [API key not configured]. *)
Lemma summarize_returns_value (self : Connector) text log :
  ∃ result summary log',
    generate self (SUMMARY_INSTRUCTION ++ text) None log = (Returns result, log')
    ∧ summarize self text log = (Returns summary, log')
    ∧ (success result = true → summary = content result)
    ∧ (success result = false →
       summary = DStr (SUMMARY_FAILED ++ format_value (error_message result))
       ∧ summary ≠ DStr [] ∧ summary ≠ content result)
    ∧ (truthy (api_key (settings self)) = false →
       success result = false
       ∧ summary = DStr (SUMMARY_FAILED ++ NOT_CONFIGURED)).
Proof.
  destruct (generate_returns self (SUMMARY_INSTRUCTION ++ text) log)
    as (result & log' & Hgen & Hfail & _).
  exists result. eexists _, log'. split; [done|].
  split; [by rewrite summarize_run, Hgen|].
  split_and!.
  - by intros ->.
  - intros Hs. rewrite Hs, (Hfail Hs). done.
  - intros Hkey. rewrite generate_without_key in Hgen by done.
    by injection Hgen as <- <-.
Qed.

End LLMProperties.

Section MessagingProperties.
Import Py Net Messaging.
Context `{World}.

(** Building an item needs the label and nothing else; it sends nothing. *)
Lemma quick_reply_item_run opt log :
  quick_reply_item opt log =
    (match opt !! "label" with
     | Some label => Returns (item_for opt label)
     | None => Raises (KeyError "label")
     end, log).
Proof.
  unfold quick_reply_item, item_for, getitem.
  destruct (decide (is_Some (opt !! "data"))) as [[data Hdata]|Hnone].
  - rewrite bind_run, Hdata. by destruct (opt !! "label").
  - apply eq_None_not_Some in Hnone. rewrite bind_run, Hnone.
    by destruct (opt !! "label").
Qed.

(** The items of a list of options: one per option, in order, unless a
    label is missing. *)
Lemma quick_reply_items_run opts log :
  mapM quick_reply_item opts log =
    (match mapM (λ opt, item_for opt <$> opt !! "label") opts with
     | Some items => Returns items
     | None => Raises (KeyError "label")
     end, log).
Proof.
  induction opts as [|opt opts IH]; [done|].
  change (mapM quick_reply_item (opt :: opts))
    with (item ← quick_reply_item opt;
          items ← mapM quick_reply_item opts; mret (item :: items)).
  rewrite bind_run, quick_reply_item_run.
  cbn [mapM mbind option_bind].
  destruct (opt !! "label") as [label|]; [|done]. cbn.
  rewrite bind_run, IH.
  destruct (mapM (M:=option) _ opts); reflexivity.
Qed.

(** [_send_messages] returns, having sent the messages in one request to
    the push endpoint when token and recipient are set, and nothing
    otherwise. *)
Lemma send_messages_run self messages user log :
  ∃ result,
    _send_messages self messages user log =
      (Returns result,
       if truthy (channel_access_token self)
          && truthy (or_else user (user_id self))
       then log ++ [POST PUSH_API_URL (channel_access_token self)
                      (LinePush (format_optional (or_else user (user_id self)))
                         messages) 10]
       else log).
Proof.
  unfold _send_messages.
  destruct (truthy (channel_access_token self)); cbn [negb andb]; [|by eexists].
  destruct (truthy (or_else user (user_id self))); cbn [negb]; [|by eexists].
  rewrite bind_run. unfold send_request. by eexists.
Qed.

(** What [send] does, connector by connector: nothing is sent and the
    result is a failure with a message, or one request carrying the message
    is sent with a timeout of 10 seconds. *)
Lemma send_run (self : Connector) message kwargs log :
  ∃ result log',
    send self message kwargs log = (Returns result, log')
    ∧ platform result = platform_of self
    ∧ ((log' = log ∧ success result = false ∧ is_Some (error_message result))
       ∨ ∃ url bearer body,
           log' = log ++ [POST url bearer body 10]
           ∧ text_of (POST url bearer body 10) = Some message).
Proof.
  destruct self as [c|c|c|c]; cbn [send Connector_connector platform_of].
  - cbn [send Discord_connector]. unfold Discord_send.
    destruct (truthy (discord_webhook_url c)); cbn [negb].
    + rewrite bind_run. unfold send_request. eexists _, _.
      split; [reflexivity|]. split; [by destruct (post_webhook _ _)|].
      right. by eexists _, _, _.
    + eexists _, _. split; [reflexivity|]. split; [done|]. left. by split_and!.
  - cbn [send Telegram_connector]. unfold Telegram_send.
    destruct (negb (truthy (bot_token c)) || negb (truthy (chat_id c))).
    + eexists _, _. split; [reflexivity|]. split; [done|]. left. by split_and!.
    + rewrite bind_run. unfold send_request. eexists _, _.
      split; [reflexivity|]. split; [by destruct (post_telegram _ _)|].
      right. by eexists _, _, _.
  - cbn [send Slack_connector]. unfold Slack_send.
    destruct (truthy (slack_webhook_url c)); cbn [negb].
    + rewrite bind_run. unfold send_request. eexists _, _.
      split; [reflexivity|]. split; [by destruct (post_webhook _ _)|].
      right. by eexists _, _, _.
    + eexists _, _. split; [reflexivity|]. split; [done|]. left. by split_and!.
  - cbn [send Line_connector]. unfold Line_send, _send_messages.
    destruct (truthy (channel_access_token c)); cbn [negb].
    2:{ eexists _, _. split; [reflexivity|]. split; [done|]. left. by split_and!. }
    destruct (truthy (or_else (kwargs !! "user_id") (user_id c))); cbn [negb].
    2:{ eexists _, _. split; [reflexivity|]. split; [done|]. left. by split_and!. }
    rewrite bind_run. unfold send_request. eexists _, _.
    split; [reflexivity|]. split; [by destruct (post_line _ _)|].
    right. by eexists _, _, _.
Qed.

(** C6.  For every list of options, [send_with_quick_reply] transmits at
    most one message, and the items of that message are built from the
    first 13 options and from no other: 13 items when more than 13 options
    were given, one per option otherwise.  Options after the thirteenth are
    not looked at.  When token and recipient are set and each of the first
    13 options has a label, the message is transmitted. *)
Theorem quick_reply_capped_at_13 self message options kwargs log result sent :
  send_with_quick_reply self message options kwargs log = (result, sent) →
  (sent = log
   ∨ ∃ to items,
       sent = log ++ [POST PUSH_API_URL (channel_access_token self)
                        (LinePush to [QuickReplyMessage message items]) 10]
       ∧ length items = length options `min` 13
       ∧ (length options = 15 → length items = 13)
       ∧ Forall2 (λ opt item, ∃ label, opt !! "label" = Some label
                                        ∧ item = item_for opt label)
           (take 13 options) items)
  ∧ (truthy (channel_access_token self) = true →
     truthy (or_else (kwargs !! "user_id") (user_id self)) = true →
     Forall (λ opt, is_Some (opt !! "label")) (take 13 options) →
     sent ≠ log ∧ ∃ r, result = Returns r).
Proof.
  unfold send_with_quick_reply. rewrite bind_run, quick_reply_items_run.
  destruct (mapM _ (take 13 options)) as [items|] eqn:Hitems.
  - destruct (send_messages_run self [QuickReplyMessage message items]
                (kwargs !! "user_id") log) as [r ->].
    intros [= <- <-]. split.
    + destruct (_ && _); [right|by left].
      eexists _, items. split; [done|].
      apply mapM_Some in Hitems.
      assert (length items = length options `min` 13) as Hlen.
      { apply Forall2_length in Hitems. rewrite length_take in Hitems. lia. }
      split_and!; [done|lia|].
      eapply Forall2_impl; [exact Hitems|]. intros opt item Hitem. simpl in Hitem.
      destruct (opt !! "label") as [label|]; [|done].
      exists label. split; [done|]. by injection Hitem.
    + intros -> -> _. cbn [andb]. split; [|by eexists].
      intros Heq. apply (f_equal length) in Heq.
      rewrite length_app in Heq. simpl in Heq. lia.
  - intros [= <- <-]. split; [by left|].
    intros _ _ Hlabels. exfalso.
    apply mapM_None in Hitems. apply Exists_exists in Hitems as (opt & Hin & Hnone).
    rewrite Forall_forall in Hlabels. destruct (Hlabels opt Hin) as [label Hlabel].
    by rewrite Hlabel in Hnone.
Qed.

End MessagingProperties.

(* ===================================================================== *)
(** * Properties of the pipeline *)
(* ===================================================================== *)

Section PipelineProperties.
Import Py Net Main.
Context `{World, Analyzer.Env, Filter.Env}.
#[local] Existing Instances LLM.Connector_connector Messaging.Connector_connector.


(** A request whose prompt can be read is a POST. *)
Lemma prompt_of_post req prompt :
  LLM.prompt_of req = Some prompt →
  ∃ url bearer body timeout, req = POST url bearer body timeout.
Proof. destruct req; [done|]. by eexists _, _, _, _. Qed.

(** What [summarize] sends: one request with the instruction and the text
    when the connector has a key, nothing otherwise, and then the summary
    is the failure text. *)
Lemma summarize_log (self : LLM.Connector) text log :
  ∃ summary log',
    LLM.summarize self text log = (Returns summary, log')
    ∧ if truthy (LLM.api_key (LLM.settings self))
      then ∃ req, log' = log ++ [req]
                  ∧ LLM.prompt_of req = Some (LLM.SUMMARY_INSTRUCTION ++ text)
      else log' = log
           ∧ summary = DStr (LLM.SUMMARY_FAILED ++ LLM.NOT_CONFIGURED).
Proof.
  destruct (truthy (LLM.api_key (LLM.settings self))) eqn:Hkey.
  - destruct (summarize_request self text log Hkey)
      as (req & summary & Hrun & Hprompt & _).
    exists summary, (log ++ [req]). split; [done|]. by exists req.
  - exists (DStr (LLM.SUMMARY_FAILED ++ LLM.NOT_CONFIGURED)), log.
    rewrite summarize_run, generate_without_key by done. by split.
Qed.

(** How the slice of the summary runs. *)
Lemma getslice_run (v : Dyn) log :
  getslice v log
  = (match slice_error v with None => Returns () | Some e => Raises e end, log).
Proof. unfold getslice. by destruct (slice_error v). Qed.

(** The notification step: it returns, whatever the connector answers,
    having sent at most one request, which carries the message. *)
Lemma notify_run (messenger : option Messaging.Connector)
    (send_notification : bool) (message : str) log :
  ∃ log',
    (match messenger with
     | Some messenger =>
         if send_notification
         then Messaging.send messenger message ∅;; mret ()
         else mret ()
     | None => mret ()
     end : M ()) log = (Returns (), log')
    ∧ (send_notification = false ∨ messenger = None → log' = log)
    ∧ (log' = log
       ∨ ∃ url bearer body,
           log' = log ++ [POST url bearer body 10]
           ∧ Messaging.text_of (POST url bearer body 10) = Some message)
    ∧ (∀ connector, messenger = Some connector → send_notification = true →
       ∃ result, Messaging.send connector message ∅ log = (Returns result, log')).
Proof.
  destruct messenger as [m|]; [|exists log; by split_and!; [| |left|]].
  destruct send_notification; [|exists log; by split_and!; [| |left|]].
  rewrite bind_run.
  destruct (send_run m message ∅ log) as (result & log' & Hsend & _ & Hsent).
  rewrite Hsend. exists log'. split_and!; [done|by intros [|]| |].
  - destruct Hsent as [[-> _]|Hsent]; [by left|by right].
  - intros connector [= <-] _. by exists result.
Qed.

(** A run whose fetch raised stops there, with the exception. *)
Lemma process_after_raising_fetch self url notify log e log' :
  Crawler.fetch (crawler self) url log = (Raises e, log') →
  process self url notify log = (Raises e, log').
Proof. intros Hfetch. unfold process. by rewrite bind_run, Hfetch. Qed.

(** A run whose fetch failed stops there. *)
Lemma process_after_failed_fetch self url notify log r log' :
  Crawler.fetch (crawler self) url log = (Returns r, log') →
  Crawler.success r = false →
  process self url notify log
  = (Returns {[ "error" :=
                  VStr (CRAWL_FAILED
                        ++ format_optional (Crawler.error_message r)) ]},
     log').
Proof.
  intros Hfetch Hfail. unfold process.
  rewrite bind_run, Hfetch, Hfail. reflexivity.
Qed.

(** The steps of a run whose fetch succeeded, with what each sends: the
    summary is asked for; when its slice raises the run ends there with
    that exception; otherwise the notification step follows and the full
    report is returned. *)
Lemma process_steps self url notify log r log1 :
  Crawler.fetch (crawler self) url log = (Returns r, log1) →
  Crawler.success r = true →
  let filtered := Filter.extract (filter self) (Crawler.html r) in
  ∃ summary log2,
    LLM.summarize (llm self) (take 3000 (Filter.body filtered)) log1
    = (Returns summary, log2)
    ∧ match slice_error summary with
      | Some e => process self url notify log = (Raises e, log2)
      | None =>
          ∃ log3,
            process self url notify log =
              (Returns
                 (full_report url filtered
                    (Analyzer.analyze (analyzer self) (Filter.body filtered))
                    summary),
               log3)
            ∧ (notify = false ∨ messenger self = None → log3 = log2)
            ∧ (log3 = log2
               ∨ ∃ url bearer body,
                   log3 = log2 ++ [POST url bearer body 10]
                   ∧ Messaging.text_of (POST url bearer body 10)
                     = Some (NEWS_PREFIX ++ Filter.title filtered
                             ++ [10; 10]%N ++ format_value summary))
            ∧ (∀ connector, messenger self = Some connector → notify = true →
               ∃ result,
                 Messaging.send connector
                   (NEWS_PREFIX ++ Filter.title filtered
                    ++ [10; 10]%N ++ format_value summary) ∅ log2
                 = (Returns result, log3))
      end.
Proof.
  intros Hfetch Hok filtered. unfold process.
  rewrite bind_run, Hfetch, Hok. cbn [negb].
  rewrite bind_run. fold filtered.
  destruct (summarize_returns (llm self) (take 3000 (Filter.body filtered)) log1)
    as (summary & log2 & Hsum).
  rewrite Hsum. exists summary, log2. split; [done|].
  rewrite bind_run, getslice_run.
  destruct (slice_error summary) as [e|]; [done|].
  rewrite bind_run.
  destruct (notify_run (messenger self) notify
              (NEWS_PREFIX ++ Filter.title filtered ++ [10%N; 10%N]
               ++ format_value summary) log2)
    as (log3 & Hnotify & Hquiet & Hsent & Hsend).
  rewrite Hnotify.
  exists log3. split; [reflexivity|]. by split_and!.
Qed.

(** When [process] returns and when it raises.  It raises in two cases
    and no other: the GET of the fetch raised an exception that is no
    [RequestException], which [fetch] lets through; or the fetch succeeded
    and what [summarize] returned cannot be sliced.  In every other run it
    returns a report, with an [error] or a [summary]. *)
Lemma process_returns_or_raises self url notify log :
  match process self url notify log with
  | (Returns report, _) =>
      is_Some (report !! "error") ∨ is_Some (report !! "summary")
  | (Raises e, log') =>
      session_get log (GET url (Crawler.headers (crawler self))
                         (Crawler.timeout (crawler self)))
      = GetRaisedOther e
      ∨ ∃ r log1 summary,
          Crawler.fetch (crawler self) url log = (Returns r, log1)
          ∧ Crawler.success r = true
          ∧ LLM.summarize (llm self)
              (take 3000
                 (Filter.body (Filter.extract (filter self) (Crawler.html r))))
              log1 = (Returns summary, log')
          ∧ slice_error summary = Some e
  end.
Proof.
  destruct (Crawler.fetch (crawler self) url log) as [[r|e] log1] eqn:Hfetch.
  - destruct (Crawler.success r) eqn:Hok.
    + destruct (process_steps self url notify log r log1 Hfetch Hok)
        as (summary & log2 & Hsum & Hrun).
      destruct (slice_error summary) as [e|] eqn:Hslice.
      * rewrite Hrun. right. by exists r, log1, summary.
      * destruct Hrun as (log3 & -> & _). right. unfold full_report.
        rewrite !lookup_insert_ne by discriminate.
        rewrite lookup_insert_eq. by eexists.
    + rewrite (process_after_failed_fetch self url notify log r log1 Hfetch Hok).
      left. rewrite lookup_singleton_eq. by eexists.
  - rewrite (process_after_raising_fetch self url notify log e log1 Hfetch).
    left. rewrite fetch_run in Hfetch.
    destruct (session_get _ _); by simplify_eq.
Qed.

(** C1, as amended.  When the fetch fails, the report [process] returns has
    one entry, ["error"], and so no title, summary or keywords; its value
    is the prefix of [CRAWL_FAILED] (crawl failed, colon, space) followed by
    the error message of the fetch, or by the word None when the fetch
    failed without one (a response whose status is not 200).  Nothing is
    requested after the fetch. *)
Theorem process_fetch_failure self url notify log r log' :
  Crawler.fetch (crawler self) url log = (Returns r, log') →
  Crawler.success r = false →
  ∃ report,
    process self url notify log = (Returns report, log')
    ∧ dom report = {[ "error" ]}
    ∧ report !! "title" = None
    ∧ report !! "summary" = None
    ∧ report !! "keywords" = None
    ∧ report !! "error"
      = Some (VStr (CRAWL_FAILED ++ format_optional (Crawler.error_message r)))
    ∧ (∀ message, Crawler.error_message r = Some message →
         report !! "error" = Some (VStr (CRAWL_FAILED ++ message))).
Proof.
  intros Hfetch Hfail. eexists.
  split; [by apply process_after_failed_fetch|].
  split_and!.
  - apply dom_singleton_L.
  - done.
  - done.
  - done.
  - apply lookup_singleton_eq.
  - intros message ->. apply lookup_singleton_eq.
Qed.

(** C5.  In a run that gets past the fetch, the text [process] passes to
    [summarize] is the first 3000 characters of the extracted body: it has
    at most 3000 characters, and it is the body itself when the body has no
    more than 3000.  A connector with a key sends it in one request whose
    prompt is the instruction followed by that text.  The summary of the
    report is what [summarize] returned for that text; the run returns
    that report unless the slice of the summary raises, which a summary
    that is a string does not. *)
Theorem process_truncates_body self url notify log r log1 :
  Crawler.fetch (crawler self) url log = (Returns r, log1) →
  Crawler.success r = true →
  ∃ text summary log2,
    text = take 3000 (Filter.body (Filter.extract (filter self) (Crawler.html r)))
    ∧ length text ≤ 3000
    ∧ (length (Filter.body (Filter.extract (filter self) (Crawler.html r))) ≤ 3000 →
       text = Filter.body (Filter.extract (filter self) (Crawler.html r)))
    ∧ LLM.summarize (llm self) text log1 = (Returns summary, log2)
    ∧ (truthy (LLM.api_key (LLM.settings (llm self))) = true →
       ∃ req, log2 = log1 ++ [req]
              ∧ LLM.prompt_of req = Some (LLM.SUMMARY_INSTRUCTION ++ text))
    ∧ match slice_error summary with
      | None =>
          ∃ report log3,
            process self url notify log = (Returns report, log3)
            ∧ report !! "summary" = Some (VDyn summary)
      | Some e => process self url notify log = (Raises e, log2)
      end
    ∧ (∀ s, summary = DStr s →
       ∃ report log3,
         process self url notify log = (Returns report, log3)
         ∧ report !! "summary" = Some (VStr s)).
Proof.
  intros Hfetch Hok.
  destruct (process_steps self url notify log r log1 Hfetch Hok)
    as (summary & log2 & Hsum & Hrun).
  assert (match slice_error summary with
          | None =>
              ∃ report log3,
                process self url notify log = (Returns report, log3)
                ∧ report !! "summary" = Some (VDyn summary)
          | Some e => process self url notify log = (Raises e, log2)
          end) as Hend.
  { destruct (slice_error summary) as [e|]; [done|].
    destruct Hrun as (log3 & Hrun & _). eexists _, log3. split; [exact Hrun|].
    unfold full_report.
    rewrite !lookup_insert_ne by discriminate. apply lookup_insert_eq. }
  eexists _, summary, log2. split; [reflexivity|].
  split_and!.
  - rewrite length_take. lia.
  - intros Hshort. by apply take_ge.
  - exact Hsum.
  - intros Hkey.
    destruct (summarize_request (llm self)
                (take 3000 (Filter.body (Filter.extract (filter self) (Crawler.html r))))
                log1 Hkey) as (req & summary' & Hsum' & Hprompt & _).
    rewrite Hsum in Hsum'. injection Hsum' as _ ->. by exists req.
  - exact Hend.
  - intros s ->. exact Hend.
Qed.

End PipelineProperties.

(* ===================================================================== *)
(** * The program at work: examples, witnesses and counterexamples *)
(* ===================================================================== *)

Section Runs.
Import Py Re Net.

(** The tokenizer without [jieba] on a line of English: runs of letters and
    digits, lower-cased, without the stop-words and the one-letter word. *)
Example tokenize_english :
  @Analyzer.tokenize Analyzer.env_insertion_order Analyzer.default_analyzer
    (lit "The Quick brown fox 123 a quick FOX")
  = lit <$> ["quick"; "brown"; "fox"; "123"; "quick"; "fox"]%string.
Proof. vm_compute. reflexivity. Qed.

(** Counting and ranking: the largest count first, ties in the order the
    words were first seen. *)
Example most_common_ranks :
  Analyzer.most_common 3
    (Analyzer.Counter (lit <$> ["b"; "a"; "c"; "a"; "c"; "d"]%string))
  = [(lit "a", 2); (lit "c", 2); (lit "b", 1)].
Proof. vm_compute. reflexivity. Qed.

(** The name pattern takes capitalised words separated by any run of white
    space; a word in lower case ends the name. *)
Example names_found :
  Analyzer.pooled_entities (lit "John Smith met Mary  Jones and Bob")
  = [lit "John Smith"; lit "Mary  Jones"].
Proof. vm_compute. reflexivity. Qed.

(** The organisation pattern gives back characters to reach its suffix:
    on five repetitions of the two ideographs for "company" it finds a
    match of six ideographs, then one of four. *)
Example organisation_backtracks :
  Analyzer.pooled_entities (concat (replicate 5 [20844; 21496]%N))
  = [concat (replicate 3 [20844; 21496]%N); concat (replicate 2 [20844; 21496]%N)].
Proof. vm_compute. reflexivity. Qed.

(** The honorific pattern on a sentence with a director and a mister: three
    ideographs then the suffix, twice; the sentence has no organisation
    suffix and no Latin name. *)
Example honorifics_found :
  Analyzer.pooled_entities
    [21488; 31309; 38651; 33891; 20107; 38263; 21129; 24503; 38899; 34920;
     31034; 29579; 23567; 26126; 20808; 29983]%N
  = [[21488; 31309; 38651; 33891; 20107]; [29579; 23567; 26126; 20808; 29983]]%N.
Proof. vm_compute. reflexivity. Qed.

Lemma insertion_order_is_set_iteration :
  @Analyzer.set_iteration Analyzer.env_insertion_order.
Proof.
  intros l. split; [apply stable_dedupe_NoDup|].
  apply set_eq. intros x. rewrite !elem_of_list_to_set.
  apply stable_dedupe_elem.
Qed.

Lemma reverse_order_is_set_iteration :
  @Analyzer.set_iteration Analyzer.env_reverse_order.
Proof.
  intros l. split.
  { simpl. rewrite reverse_Permutation. apply stable_dedupe_NoDup. }
  apply set_eq. intros x. simpl. rewrite !elem_of_list_to_set, elem_of_reverse.
  apply stable_dedupe_elem.
Qed.

End Runs.

(** C8, witness: the default analyzer (20 keywords, words of two characters
    or more) with ASCII lower-casing, on a line of English. *)
Lemma analyze_keywords_witness :
  (Z.of_nat
     (length
        (Analyzer.keywords
           (@Analyzer.analyze Analyzer.env_insertion_order
              Analyzer.default_analyzer
              (Py.lit "The Quick brown fox 123 a quick FOX"))))
   ≤ Analyzer.top_n Analyzer.default_analyzer)%Z
  ∧ (∀ term count,
       (term, count)
       ∈ Analyzer.keywords
           (@Analyzer.analyze Analyzer.env_insertion_order
              Analyzer.default_analyzer
              (Py.lit "The Quick brown fox 123 a quick FOX")) →
       (term ∉ Analyzer.STOP_WORDS)
       ∧ (Analyzer.min_word_length Analyzer.default_analyzer
          ≤ Z.of_nat (length term))%Z).
Proof.
  apply (@analyze_keywords_ranked_and_filtered Analyzer.env_insertion_order).
  - simpl. lia.
  - intros w. simpl. unfold Py.ascii_lower. rewrite length_fmap. lia.
Defined.

(** C2, witness: a set that iterates in insertion order. *)
Lemma analyze_entities_witness :
  Analyzer.top_entities
    (@Analyzer.analyze Analyzer.env_insertion_order Analyzer.default_analyzer
       Demo.TWO_NAMES)
  = take 10 (@Analyzer.list_of_set Analyzer.env_insertion_order
               (Analyzer.pooled_entities Demo.TWO_NAMES))
  ∧ NoDup (Analyzer.top_entities
             (@Analyzer.analyze Analyzer.env_insertion_order
                Analyzer.default_analyzer Demo.TWO_NAMES))
  ∧ length (Analyzer.top_entities
              (@Analyzer.analyze Analyzer.env_insertion_order
                 Analyzer.default_analyzer Demo.TWO_NAMES)) ≤ 10
  ∧ (∀ e, e ∈ Analyzer.top_entities
                (@Analyzer.analyze Analyzer.env_insertion_order
                   Analyzer.default_analyzer Demo.TWO_NAMES) →
          e ∈ Analyzer.pooled_entities Demo.TWO_NAMES)
  ∧ (length (Analyzer.stable_dedupe (Analyzer.pooled_entities Demo.TWO_NAMES)) ≤ 10 →
     Analyzer.top_entities
       (@Analyzer.analyze Analyzer.env_insertion_order
          Analyzer.default_analyzer Demo.TWO_NAMES)
     ≡ₚ Analyzer.stable_dedupe (Analyzer.pooled_entities Demo.TWO_NAMES)).
Proof.
  apply (@analyze_entities_set_dedupe Analyzer.env_insertion_order).
  apply insertion_order_is_set_iteration.
Defined.

(** C2, counterexample.  With a set that iterates in the reverse of the
    insertion order, which is a set all the same, the two names of the text
    come out second name first: not the first 10 elements of the stable
    deduplication. *)
Lemma entities_follow_the_set_order :
  @Analyzer.set_iteration Analyzer.env_reverse_order
  ∧ Analyzer.pooled_entities Demo.TWO_NAMES
    = [Py.lit "John Smith"; Py.lit "Mary Jones"]
  ∧ Analyzer.top_entities
      (@Analyzer.analyze Analyzer.env_reverse_order Analyzer.default_analyzer
         Demo.TWO_NAMES)
    = [Py.lit "Mary Jones"; Py.lit "John Smith"]
  ∧ Analyzer.top_entities
      (@Analyzer.analyze Analyzer.env_reverse_order Analyzer.default_analyzer
         Demo.TWO_NAMES)
    ≠ take 10 (Analyzer.stable_dedupe (Analyzer.pooled_entities Demo.TWO_NAMES)).
Proof.
  split; [apply reverse_order_is_set_iteration|].
  split; [vm_compute; reflexivity|].
  split; [vm_compute; reflexivity|].
  vm_compute. intros [=].
Qed.

(** C1, witness: a fetch that times out, in a pipeline ready to notify. *)
Lemma process_timeout_witness :
  ∃ report,
    @Main.process Demo.timeout_world Analyzer.env_insertion_order
      Demo.one_paragraph
      (Demo.bot (Some (Py.lit "key")) (Some (Messaging.Line Demo.line)))
      Demo.EXAMPLE_URL true []
    = (Net.Returns report, Demo.fetch_log)
    ∧ dom report = {[ "error" ]}
    ∧ report !! "title" = None
    ∧ report !! "summary" = None
    ∧ report !! "keywords" = None
    ∧ report !! "error"
      = Some (Main.VStr
                (Main.CRAWL_FAILED
                 ++ Py.format_optional (Crawler.error_message Demo.timeout_result)))
    ∧ (∀ message, Crawler.error_message Demo.timeout_result = Some message →
         report !! "error" = Some (Main.VStr (Main.CRAWL_FAILED ++ message))).
Proof.
  apply (@process_fetch_failure Demo.timeout_world Analyzer.env_insertion_order
           Demo.one_paragraph _ Demo.EXAMPLE_URL true [] Demo.timeout_result
           Demo.fetch_log).
  - reflexivity.
  - reflexivity.
Defined.

(** C1, counterexample.  The fetch fails with the message [timeout]; the
    failure message of the report is that message behind the prefix of
    [CRAWL_FAILED], so the two are not equal. *)
Lemma failure_message_is_prefixed :
  @Crawler.fetch Demo.timeout_world Crawler.default_crawler Demo.EXAMPLE_URL []
  = (Net.Returns Demo.timeout_result, Demo.fetch_log)
  ∧ Crawler.success Demo.timeout_result = false
  ∧ Crawler.error_message Demo.timeout_result = Some (Py.lit "timeout")
  ∧ @Main.process Demo.timeout_world Analyzer.env_insertion_order
      Demo.one_paragraph (Demo.bot None None) Demo.EXAMPLE_URL false []
    = (Net.Returns
         {[ "error" := Main.VStr (Main.CRAWL_FAILED ++ Py.lit "timeout") ]},
       Demo.fetch_log)
  ∧ Main.VStr (Main.CRAWL_FAILED ++ Py.lit "timeout")
    ≠ Main.VStr (Py.lit "timeout").
Proof.
  split_and!; try reflexivity.
  vm_compute. intros [=].
Qed.

(** C5, witness: a page of 3500 characters. *)
Lemma long_page_witness :
  ∃ text summary log2,
    text = take 3000
             (Filter.body
                (@Filter.extract Demo.one_paragraph Filter.default_filter
                   (Crawler.html Demo.long_page_result)))
    ∧ length text ≤ 3000
    ∧ (length
         (Filter.body
            (@Filter.extract Demo.one_paragraph Filter.default_filter
               (Crawler.html Demo.long_page_result))) ≤ 3000 →
       text = Filter.body
                (@Filter.extract Demo.one_paragraph Filter.default_filter
                   (Crawler.html Demo.long_page_result)))
    ∧ @LLM.summarize _ (@LLM.Connector_connector Demo.long_page_world)
        (Main.llm (Demo.bot (Some (Py.lit "key")) None)) text Demo.fetch_log
      = (Net.Returns summary, log2)
    ∧ (Py.truthy
         (LLM.api_key
            (LLM.settings (Main.llm (Demo.bot (Some (Py.lit "key")) None))))
       = true →
       ∃ req, log2 = Demo.fetch_log ++ [req]
              ∧ LLM.prompt_of req = Some (LLM.SUMMARY_INSTRUCTION ++ text))
    ∧ match Net.slice_error summary with
      | None =>
          ∃ report log3,
            @Main.process Demo.long_page_world Analyzer.env_insertion_order
              Demo.one_paragraph (Demo.bot (Some (Py.lit "key")) None)
              Demo.EXAMPLE_URL false []
            = (Net.Returns report, log3)
            ∧ report !! "summary" = Some (Main.VDyn summary)
      | Some e =>
          @Main.process Demo.long_page_world Analyzer.env_insertion_order
            Demo.one_paragraph (Demo.bot (Some (Py.lit "key")) None)
            Demo.EXAMPLE_URL false []
          = (Net.Raises e, log2)
      end
    ∧ (∀ s, summary = Net.DStr s →
       ∃ report log3,
         @Main.process Demo.long_page_world Analyzer.env_insertion_order
           Demo.one_paragraph (Demo.bot (Some (Py.lit "key")) None)
           Demo.EXAMPLE_URL false []
         = (Net.Returns report, log3)
         ∧ report !! "summary" = Some (Main.VStr s)).
Proof.
  apply (@process_truncates_body Demo.long_page_world
           Analyzer.env_insertion_order Demo.one_paragraph
           (Demo.bot (Some (Py.lit "key")) None) Demo.EXAMPLE_URL false []
           Demo.long_page_result Demo.fetch_log).
  - reflexivity.
  - reflexivity.
Defined.

(** The same run, evaluated: the body has 3499 characters (the page without
    its last space), two requests go out, the prompt of the second is the
    instruction followed by the first 3000 characters of the page, and the
    report carries the model's answer. *)
Example long_page_run :
  length
    (Filter.body
       (@Filter.extract Demo.one_paragraph Filter.default_filter Demo.long_page))
  = 3499
  ∧ LLM.prompt_of
      <$> (@Main.process Demo.long_page_world Analyzer.env_insertion_order
             Demo.one_paragraph (Demo.bot (Some (Py.lit "key")) None)
             Demo.EXAMPLE_URL false []).2
    = [None;
       Some (LLM.SUMMARY_INSTRUCTION ++ concat (replicate 600 (Py.lit "news ")))]
  ∧ match
      (@Main.process Demo.long_page_world Analyzer.env_insertion_order
         Demo.one_paragraph (Demo.bot (Some (Py.lit "key")) None)
         Demo.EXAMPLE_URL false []).1
    with
    | Net.Returns report => report !! "summary"
    | Net.Raises _ => None
    end = Some (Main.VStr (Py.lit "ok")).
Proof. split_and!; vm_compute; reflexivity. Qed.

(** C6, witness: fifteen options sent through a configured connector. *)
Lemma fifteen_options_witness :
  ((@Messaging.send_with_quick_reply Demo.long_page_world Demo.line
      (Py.lit "Pick one") Demo.fifteen_options ∅ []).2 = []
   ∨ ∃ to items,
       (@Messaging.send_with_quick_reply Demo.long_page_world Demo.line
          (Py.lit "Pick one") Demo.fifteen_options ∅ []).2
       = [] ++ [Net.POST Messaging.PUSH_API_URL
                  (Messaging.channel_access_token Demo.line)
                  (Net.LinePush to
                     [Net.QuickReplyMessage (Py.lit "Pick one") items]) 10]
       ∧ length items = length Demo.fifteen_options `min` 13
       ∧ (length Demo.fifteen_options = 15 → length items = 13)
       ∧ Forall2 (λ opt item, ∃ label, opt !! "label" = Some label
                                        ∧ item = Messaging.item_for opt label)
           (take 13 Demo.fifteen_options) items)
  ∧ (Py.truthy (Messaging.channel_access_token Demo.line) = true →
     Py.truthy
       (Py.or_else ((∅ : gmap string Py.str) !! "user_id")
          (Messaging.user_id Demo.line)) = true →
     Forall (λ opt, is_Some (opt !! "label")) (take 13 Demo.fifteen_options) →
     (@Messaging.send_with_quick_reply Demo.long_page_world Demo.line
        (Py.lit "Pick one") Demo.fifteen_options ∅ []).2 ≠ []
     ∧ ∃ r, (@Messaging.send_with_quick_reply Demo.long_page_world Demo.line
               (Py.lit "Pick one") Demo.fifteen_options ∅ []).1
            = Net.Returns r).
Proof.
  apply (@quick_reply_capped_at_13 Demo.long_page_world Demo.line
           (Py.lit "Pick one") Demo.fifteen_options ∅ []).
  vm_compute. reflexivity.
Defined.

(** The same call, evaluated: one request goes out, with 13 items, the
    first a postback for A and the last a postback for M; N and O are not
    sent. *)
Example fifteen_options_run :
  ∃ result items,
    @Messaging.send_with_quick_reply Demo.long_page_world Demo.line
      (Py.lit "Pick one") Demo.fifteen_options ∅ []
    = (Net.Returns result,
       [Net.POST Messaging.PUSH_API_URL (Some (Py.lit "token"))
          (Net.LinePush (Py.lit "U1")
             [Net.QuickReplyMessage (Py.lit "Pick one") items]) 10])
    ∧ length Demo.fifteen_options = 15
    ∧ length items = 13
    ∧ head items
      = Some (Net.ActionItem
                (Net.PostbackAction (Py.lit "A") (Py.lit "action=A") (Py.lit "A")))
    ∧ last items
      = Some (Net.ActionItem
                (Net.PostbackAction (Py.lit "M") (Py.lit "action=M") (Py.lit "M")))
    ∧ Messaging.success result = true.
Proof.
  eexists _, _. split; [vm_compute; reflexivity|].
  split_and!; vm_compute; reflexivity.
Qed.

(** C7, witness: a Gemini connector without a key. *)
Lemma no_credential_witness :
  (∃ response,
     @LLM.generate _ (@LLM.Connector_connector Demo.long_page_world)
       (Main.llm (Demo.bot None None)) (Py.lit "Say hello") None []
     = (Net.Returns response, [])
     ∧ LLM.success response = false
     ∧ LLM.content response = Net.DStr []
     ∧ LLM.error_message response = Net.DStr LLM.NOT_CONFIGURED)
  ∧ @LLM.summarize _ (@LLM.Connector_connector Demo.long_page_world)
      (Main.llm (Demo.bot None None)) (Py.lit "Some news") []
    = (Net.Returns (Net.DStr (LLM.SUMMARY_FAILED ++ LLM.NOT_CONFIGURED)), []).
Proof.
  apply (@no_credential_no_request Demo.long_page_world).
  reflexivity.
Defined.

(** C7, counterexample.  Without a credential [summarize] returns a string,
    the failure prefix followed by the message; that value is no response
    object and has no [success] attribute to be false. *)
Lemma summarize_gives_text_not_response :
  @LLM.summarize _ (@LLM.Connector_connector Demo.long_page_world)
    (Main.llm (Demo.bot None None)) (Py.lit "Some news") []
  = (Net.Returns
       (Net.DStr (LLM.SUMMARY_FAILED ++ Py.lit "API key not configured")), [])
  ∧ LLM.success_flag (LLM.Text (LLM.SUMMARY_FAILED ++ Py.lit "API key not configured"))
    ≠ Some false
  ∧ ¬ ∃ response,
        LLM.Text (LLM.SUMMARY_FAILED ++ Py.lit "API key not configured")
        = LLM.Response response.
Proof.
  split; [reflexivity|]. split; [discriminate|].
  intros [response Heq]. discriminate Heq.
Qed.

(** C4, at two failing inputs.  A URL whose host has a label of 64
    characters: [session.get] raises a [LocationParseError], which is no
    [RequestException], so [fetch] does not catch it and [process] raises it
    to its caller.  And a page that is fetched and summarised by a model
    whose completion has [null] for content: [summarize] returns [None],
    and [process] raises a [TypeError] when it slices the summary, after
    the two requests. *)
Lemma process_raises :
  @Main.process Demo.long_label_world Analyzer.env_insertion_order
    Demo.one_paragraph (Demo.bot (Some (Py.lit "key")) None)
    Demo.LONG_LABEL_URL false []
  = (Net.Raises Demo.LONG_LABEL_ERROR,
     [Net.GET Demo.LONG_LABEL_URL Crawler.DEFAULT_HEADERS 30])
  ∧ (@Main.process Demo.null_content_world Analyzer.env_insertion_order
       Demo.one_paragraph Demo.openai_bot Demo.EXAMPLE_URL false []).1
    = Net.Raises (Net.TypeError "'NoneType' object is not subscriptable")
  ∧ length
      (@Main.process Demo.null_content_world Analyzer.env_insertion_order
         Demo.one_paragraph Demo.openai_bot Demo.EXAMPLE_URL false []).2
    = 2.
Proof. split_and!; vm_compute; reflexivity. Qed.

(** C10, at a failing input.  A connector with a key, and a backend whose
    completion has [null] for content: [generate] succeeds with content
    [None], and [summarize] returns that [None], which is no string. *)
Lemma summarize_returns_none :
  (@LLM.generate _ (@LLM.Connector_connector Demo.null_content_world)
     Demo.openai (LLM.SUMMARY_INSTRUCTION ++ Py.lit "Some news") None []).1
  = Net.Returns
      {| LLM.content := Net.DNone; LLM.model := Py.lit "gpt-4o-mini";
         LLM.tokens_used := 0; LLM.success := true;
         LLM.error_message := Net.DNone |}
  ∧ (@LLM.summarize _ (@LLM.Connector_connector Demo.null_content_world)
       Demo.openai (Py.lit "Some news") []).1
    = Net.Returns Net.DNone
  ∧ ¬ ∃ s, Net.DNone = Net.DStr s.
Proof.
  split_and!.
  - reflexivity.
  - reflexivity.
  - intros [s Heq]. discriminate Heq.
Qed.

(* ===================================================================== *)
(** * More on the keyword analyzer *)
(* ===================================================================== *)

Section CounterProperties.
Import Py Re Analyzer.

Lemma getcount_count_element w c w' :
  getcount (count_element w c) w' = getcount c w' + (if decide (w = w') then 1 else 0).
Proof.
  induction c as [|[k n] c IH]; simpl.
  - destruct (decide (w = w')); lia.
  - destruct (decide (k = w)) as [->|Hkw]; simpl.
    + destruct (decide (w = w')); lia.
    + destruct (decide (k = w')) as [->|Hkw'].
      * destruct (decide (w = w')); [congruence|lia].
      * apply IH.
Qed.

Lemma getcount_foldl words acc w :
  getcount (foldl (λ c x, count_element x c) acc words) w
  = getcount acc w + occurrences w words.
Proof.
  revert acc. induction words as [|x words IH]; intros acc; simpl.
  - unfold occurrences. simpl. lia.
  - rewrite IH, getcount_count_element. unfold occurrences.
    rewrite filter_cons. destruct (decide (x = w)); simpl; lia.
Qed.

(** The count a [Counter] stores for a word is the number of its
    occurrences. *)
Lemma getcount_Counter words w : getcount (Counter words) w = occurrences w words.
Proof. unfold Counter. by rewrite getcount_foldl. Qed.

Lemma count_element_keys w c :
  (count_element w c).*1 = if decide (w ∈ c.*1) then c.*1 else c.*1 ++ [w].
Proof.
  induction c as [|[k n] c IH]; [reflexivity|].
  cbn [count_element]. rewrite fmap_cons. cbn [fst].
  destruct (decide (k = w)) as [->|Hkw]; rewrite fmap_cons; cbn [fst].
  - rewrite decide_True; [done|]. apply list_elem_of_here.
  - rewrite IH. destruct (decide (w ∈ c.*1)) as [Hin|Hout].
    + rewrite decide_True; [done|]. by apply list_elem_of_further.
    + rewrite decide_False; [done|].
      intros [->|Hin]%elem_of_cons; [done|by destruct Hout].
Qed.

Lemma foldl_count_keys words acc :
  (foldl (λ c x, count_element x c) acc words).*1
  = acc.*1 ++ filter (λ x, x ∉ acc.*1) (stable_dedupe words).
Proof.
  revert acc. induction words as [|w words IH]; intros acc.
  - cbn [foldl stable_dedupe]. by rewrite filter_nil, app_nil_r.
  - cbn [foldl stable_dedupe].
    rewrite IH, count_element_keys, filter_cons, list_filter_filter.
    destruct (decide (w ∈ acc.*1)) as [Hin|Hout].
    + rewrite decide_False by (intros Hno; by destruct Hno).
      f_equal. apply list_filter_iff. intros x. split.
      * intros Hx. split; [done|]. by intros ->.
      * by intros [Hx _].
    + rewrite decide_True by done.
      rewrite <-app_assoc. cbn [app]. do 2 f_equal.
      apply list_filter_iff. intros x.
      rewrite elem_of_app, list_elem_of_singleton. tauto.
Qed.

(** The keys of a [Counter] are the distinct words, in the order they were
    first seen. *)
Lemma Counter_keys words : (Counter words).*1 = stable_dedupe words.
Proof.
  unfold Counter. rewrite foldl_count_keys. cbn [fmap list_fmap app].
  induction (stable_dedupe words) as [|x l IH]; [done|].
  rewrite filter_cons_True by apply not_elem_of_nil. by rewrite IH.
Qed.

Lemma getcount_lookup c w n : NoDup c.*1 → (w, n) ∈ c → getcount c w = n.
Proof.
  induction c as [|[k m] c IH]; simpl; intros Hnd Hin.
  - by apply elem_of_nil in Hin.
  - apply NoDup_cons in Hnd as [Hk Hnd].
    apply elem_of_cons in Hin as [[= -> ->]|Hin].
    + by rewrite decide_True.
    + destruct (decide (k = w)) as [->|_]; [|by apply IH].
      destruct Hk. apply list_elem_of_fmap. by exists (w, n).
Qed.

Lemma Counter_NoDup words : NoDup (Counter words).*1.
Proof. rewrite Counter_keys. apply stable_dedupe_NoDup. Qed.

(** An entry of a [Counter] pairs a word with the number of its
    occurrences, which is at least one. *)
Lemma Counter_entry words w n :
  (w, n) ∈ Counter words → n = occurrences w words ∧ 1 ≤ n.
Proof.
  intros Hin.
  assert (n = occurrences w words) as ->.
  { by rewrite <-getcount_Counter, (getcount_lookup _ _ n (Counter_NoDup words) Hin). }
  split; [done|].
  apply Counter_key in Hin. unfold occurrences.
  assert (w ∈ filter (λ x, x = w) words) as Hw by by apply list_elem_of_filter.
  destruct (filter _ words); [by apply elem_of_nil in Hw|simpl; lia].
Qed.

(** A word that occurs is a key. *)
Lemma Counter_has_entry words w :
  w ∈ words → (w, occurrences w words) ∈ Counter words.
Proof.
  intros Hw.
  assert (w ∈ (Counter words).*1) as Hkey.
  { rewrite Counter_keys. by apply stable_dedupe_elem. }
  apply list_elem_of_fmap in Hkey as ([w' n] & -> & Hin). simpl.
  by destruct (Counter_entry _ _ _ Hin) as [<- _].
Qed.

Lemma count_element_sum w c :
  sum_list_with snd (count_element w c) = S (sum_list_with snd c).
Proof.
  induction c as [|[k n] c IH]; [reflexivity|].
  cbn [count_element].
  destruct (decide (k = w)); simpl in *; lia.
Qed.

Lemma foldl_count_sum words acc :
  sum_list_with snd (foldl (λ c x, count_element x c) acc words)
  = sum_list_with snd acc + length words.
Proof.
  revert acc. induction words as [|w words IH]; intros acc; cbn [foldl length].
  - lia.
  - rewrite IH, count_element_sum. lia.
Qed.

(** The counts of a [Counter] add up to the number of words counted. *)
Lemma Counter_sum words : sum_list_with snd (Counter words) = length words.
Proof. unfold Counter. by rewrite foldl_count_sum. Qed.

Lemma stable_dedupe_length l : length (stable_dedupe l) ≤ length l.
Proof.
  induction l as [|x l IH]; simpl; [done|].
  pose proof (length_filter (λ y, y ≠ x) (stable_dedupe l)). lia.
Qed.

(** Inserting moves an item past larger counts only, so the items of one
    count keep their order. *)
Lemma insert_by_count_stable n x l :
  filter (λ e, e.2 = n) (insert_by_count x l) = filter (λ e, e.2 = n) (x :: l).
Proof.
  induction l as [|y l IH]; simpl; [done|].
  destruct (x.2 <? y.2) eqn:Hlt; [|done].
  apply Nat.ltb_lt in Hlt.
  rewrite (filter_cons _ y), IH, !filter_cons.
  destruct (decide (y.2 = n)), (decide (x.2 = n)); try done. lia.
Qed.

Lemma sorted_by_count_stable n items :
  filter (λ e, e.2 = n) (sorted_by_count items) = filter (λ e, e.2 = n) items.
Proof.
  induction items as [|x items IH]; simpl; [done|].
  rewrite insert_by_count_stable, !filter_cons, IH. done.
Qed.

Lemma filter_take_prefix {A} (P : A → Prop) `{∀ x, Decision (P x)} n (l : list A) :
  filter P (take n l) `prefix_of` filter P l.
Proof.
  rewrite <-(take_drop n l) at 2. rewrite filter_app. by apply prefix_app_r.
Qed.

End CounterProperties.

Section AnalyzerMore.
Import Py Re Analyzer.
Context `{Env}.

Lemma fmap_keeps_sublist {A B} (f : A → B) (l k : list A) :
  l `sublist_of` k → f <$> l `sublist_of` f <$> k.
Proof.
  induction 1 as [|x l k _ IH|x l k _ IH]; rewrite ?fmap_cons.
  - constructor.
  - by constructor.
  - by constructor.
Qed.

Lemma keywords_sublist_keys self text n :
  (filter (λ e, e.2 = n) (keywords (analyze self text))).*1
  `sublist_of` stable_dedupe (tokenize self text).
Proof.
  rewrite <-Counter_keys. apply fmap_keeps_sublist.
  unfold analyze, most_common. cbn [keywords].
  destruct (filter_take_prefix (λ e : str * nat, e.2 = n) (Z.to_nat (top_n self))
              (sorted_by_count (Counter (tokenize self text)))) as [rest Hrest].
  rewrite sorted_by_count_stable in Hrest.
  etrans; [|apply (sublist_filter (λ e : str * nat, e.2 = n))]. rewrite Hrest.
  by apply sublist_inserts_r.
Qed.

(** X1.  The terms of the keywords are distinct, and each keyword's count is the
    number of occurrences of its term among the tokens, which is at least
    one. *)
Theorem keywords_count_occurrences self text :
  NoDup (keywords (analyze self text)).*1
  ∧ (∀ term count, (term, count) ∈ keywords (analyze self text) →
       count = occurrences term (tokenize self text)
       ∧ 1 ≤ count ∧ term ∈ tokenize self text).
Proof.
  split.
  - eapply sublist_NoDup; [|apply fmap_keeps_sublist, sublist_take].
    cbn [keywords analyze]. rewrite sorted_by_count_perm. apply Counter_NoDup.
  - intros term count Hin. cbn [keywords analyze] in Hin.
    apply most_common_subseteq in Hin.
    destruct (Counter_entry _ _ _ Hin) as [-> Hpos].
    split; [done|]. split; [done|]. by apply Counter_key in Hin.
Qed.

(** X2.  The sizes of a result: [unique_words] is the number of distinct tokens
    and never exceeds [total_words]; the keywords are [top_n] many, or all
    the distinct tokens when there are fewer; and when [top_n] covers every
    distinct token the counts of the keywords add up to [total_words]. *)
Theorem analysis_sizes self text :
  total_words (analyze self text) = length (tokenize self text)
  ∧ unique_words (analyze self text) = length (stable_dedupe (tokenize self text))
  ∧ unique_words (analyze self text) ≤ total_words (analyze self text)
  ∧ length (keywords (analyze self text))
    = Z.to_nat (top_n self) `min` unique_words (analyze self text)
  ∧ (unique_words (analyze self text) ≤ Z.to_nat (top_n self) →
     sum_list_with snd (keywords (analyze self text))
     = total_words (analyze self text)).
Proof.
  cbn [total_words unique_words keywords analyze].
  assert (length (Counter (tokenize self text))
          = length (stable_dedupe (tokenize self text))) as Hunique.
  { by rewrite <-Counter_keys, length_fmap. }
  split_and!.
  - done.
  - done.
  - rewrite Hunique. apply stable_dedupe_length.
  - unfold most_common. by rewrite length_take, sorted_by_count_perm.
  - intros Hall. unfold most_common.
    rewrite take_ge by by rewrite sorted_by_count_perm.
    by rewrite sorted_by_count_perm, Counter_sum.
Qed.

(** X3.  Ranking: no keyword is followed by one with a larger count, and the
    terms that share a count stand in the order in which they first occur
    among the tokens. *)
Theorem keywords_ranking_stable self text :
  Sorted (λ a b, b.2 ≤ a.2) (keywords (analyze self text))
  ∧ (∀ n, (filter (λ e, e.2 = n) (keywords (analyze self text))).*1
          `sublist_of` stable_dedupe (tokenize self text)).
Proof.
  split; [apply analyze_keywords_ranked|]. intros n. apply keywords_sublist_keys.
Qed.

(** X4.  No token occurs more often than the term of the first keyword. *)
Theorem first_keyword_most_frequent self text term count :
  head (keywords (analyze self text)) = Some (term, count) →
  ∀ w, occurrences w (tokenize self text) ≤ count.
Proof.
  intros Hhead w. cbn [keywords analyze] in Hhead. unfold most_common in Hhead.
  pose proof (sorted_by_count_sorted (Counter (tokenize self text))) as Hsorted.
  pose proof (sorted_by_count_perm (Counter (tokenize self text))) as Hperm.
  destruct (sorted_by_count (Counter (tokenize self text))) as [|first ranked] eqn:Hranked.
  { by destruct (Z.to_nat (top_n self)). }
  destruct (Z.to_nat (top_n self)); [done|]. injection Hhead as ->.
  destruct (decide (w ∈ tokenize self text)) as [Hw|Hw].
  - apply Counter_has_entry in Hw. rewrite <-Hperm in Hw.
    apply elem_of_cons in Hw as [Heq|Hw].
    + by injection Heq as _ ->.
    + assert (Transitive (λ a b : str * nat, b.2 ≤ a.2)) as Htrans.
      { intros a b c ??. simpl in *. lia. }
      apply Sorted_StronglySorted in Hsorted; [|done].
      apply StronglySorted_inv in Hsorted as [_ Hall].
      rewrite Forall_forall in Hall. apply (Hall _ Hw).
  - unfold occurrences.
    destruct (filter (λ x, x = w) (tokenize self text)) as [|x l] eqn:Hf;
      [simpl; lia|].
    assert (x ∈ filter (λ x, x = w) (tokenize self text)) as Hx.
    { rewrite Hf. apply list_elem_of_here. }
    apply list_elem_of_filter in Hx as [-> Hx]. done.
Qed.

End AnalyzerMore.

(* ===================================================================== *)
(** * Where the patterns cannot match *)
(* ===================================================================== *)

Section RegexProperties.
Import Py Re Analyzer.

(** No match starts at a character that starts no match. *)
Lemma findall_skip_none r (bad : codepoint → Prop) skip s :
  (∀ c s', bad c → match_length r (c :: s') = None) →
  Forall bad s → findall_skip r skip s = [].
Proof.
  intros Hbad Hs. revert skip.
  induction Hs as [|c s Hc Hs IH]; intros skip; [done|].
  cbn [findall_skip]. destruct skip; [|apply IH].
  rewrite (Hbad c s Hc). apply IH.
Qed.

(** A class, and a run of a class, match nothing at a character outside the
    class. *)
Lemma matches_class_out p c s : p c = false → matches (Class p) (c :: s) = [].
Proof. intros Hc. cbn [matches]. by rewrite Hc. Qed.

Lemma matches_plus_class_out p c s :
  p c = false → matches (Plus (Class p)) (c :: s) = [].
Proof.
  intros Hc. cbn [matches length iterate]. rewrite Hc. reflexivity.
Qed.

Lemma matches_repeat_class_out p lo hi c s :
  p c = false → 0 < lo → matches (Repeat (Class p) lo hi) (c :: s) = [].
Proof.
  intros Hc Hlo. cbn [matches]. destruct hi; cbn [iterate matches].
  - by rewrite decide_False by lia.
  - rewrite Hc. cbn. by rewrite decide_False by lia.
Qed.

Lemma matches_seq_out r1 r2 s : matches r1 s = [] → matches (Seq r1 r2) s = [].
Proof. intros Hr1. cbn [matches]. by rewrite Hr1. Qed.

Lemma matches_alt_out r1 r2 s :
  matches r1 s = [] → matches r2 s = [] → matches (Alt r1 r2) s = [].
Proof. intros Hr1 Hr2. cbn [matches]. by rewrite Hr1, Hr2. Qed.

Lemma match_length_out r s : matches r s = [] → match_length r s = None.
Proof. intros Hr. unfold match_length. by rewrite Hr. Qed.

(** What [findall] returns are pieces of the text, none of them empty. *)
Lemma findall_skip_piece r skip s e :
  e ∈ findall_skip r skip s → e ≠ [] ∧ ∃ before after, s = before ++ e ++ after.
Proof.
  revert skip. induction s as [|c s IH]; intros skip; cbn [findall_skip].
  { by intros ?%elem_of_nil. }
  assert (∀ k, e ∈ findall_skip r k s →
               e ≠ [] ∧ ∃ before after, c :: s = before ++ e ++ after) as Hlater.
  { intros k Hin. destruct (IH _ Hin) as (Hne & before & after & ->).
    split; [done|]. by exists (c :: before), after. }
  destruct skip; [|apply Hlater].
  destruct (match_length r (c :: s)) as [[|n]|]; [apply Hlater| |apply Hlater].
  intros [->|Hin]%elem_of_cons; [|by eapply Hlater].
  split; [done|]. exists [], (drop (S n) (c :: s)).
  by rewrite app_nil_l, take_drop.
Qed.

End RegexProperties.

Section AnalyzerEdges.
Import Py Re Analyzer.
Context `{Env}.

Lemma no_word_at c s : word_character c = false → match_length WORD_PATTERN (c :: s) = None.
Proof.
  unfold word_character. intros Hc.
  apply orb_false_elim in Hc as [Hc Hdecimal].
  apply orb_false_elim in Hc as [Hcjk Hletter].
  apply match_length_out. unfold WORD_PATTERN.
  repeat apply matches_alt_out; by apply matches_plus_class_out.
Qed.

Lemma no_entity_at pattern c s :
  pattern ∈ ENTITY_PATTERNS →
  ascii_upper_letter c = false → cjk_ideograph c = false →
  match_length pattern (c :: s) = None.
Proof.
  intros Hpattern Hupper Hcjk. apply match_length_out.
  unfold ENTITY_PATTERNS in Hpattern.
  apply elem_of_cons in Hpattern as [->|Hpattern].
  { unfold CAPITALIZED_WORD. do 2 apply matches_seq_out.
    by apply matches_class_out. }
  apply elem_of_cons in Hpattern as [->|Hpattern].
  { apply matches_seq_out, matches_repeat_class_out; [done|lia]. }
  apply list_elem_of_singleton in Hpattern as ->.
  apply matches_seq_out, matches_repeat_class_out; [done|lia].
Qed.

(** X5.  Without [jieba], a text in which no character is an ideograph, an ASCII
    letter or a decimal digit (the empty text, white space, punctuation) has
    no tokens: no keywords, and both counts are 0. *)
Theorem analyze_without_word_characters self text :
  JIEBA_AVAILABLE = false →
  Forall (λ c, word_character c = false) text →
  keywords (analyze self text) = []
  ∧ total_words (analyze self text) = 0
  ∧ unique_words (analyze self text) = 0.
Proof.
  intros Hjieba Htext.
  assert (tokenize self text = []) as Htokens.
  { unfold tokenize. rewrite Hjieba. unfold findall.
    rewrite (findall_skip_none _ (λ c, word_character c = false)); [done| |done].
    intros c s. apply no_word_at. }
  unfold analyze. cbn [keywords total_words unique_words]. rewrite Htokens.
  unfold most_common. cbn [Counter foldl sorted_by_count foldr length].
  by rewrite take_nil.
Qed.

(** X6.  A text without ASCII capital letters and without ideographs has no
    entities. *)
Theorem analyze_without_entity_characters self text :
  set_iteration →
  Forall (λ c, ascii_upper_letter c = false ∧ cjk_ideograph c = false) text →
  pooled_entities text = [] ∧ top_entities (analyze self text) = [].
Proof.
  intros Hset Htext.
  assert (pooled_entities text = []) as Hpooled.
  { unfold pooled_entities.
    destruct (ENTITY_PATTERNS ≫= λ pattern, findall pattern text) as [|e l] eqn:Hbind;
      [done|].
    assert (e ∈ ENTITY_PATTERNS ≫= λ pattern, findall pattern text) as He.
    { rewrite Hbind. apply list_elem_of_here. }
    apply list_elem_of_bind in He as (pattern & He & Hpattern).
    unfold findall in He.
    rewrite (findall_skip_none _
               (λ c, ascii_upper_letter c = false ∧ cjk_ideograph c = false))
      in He; [by apply elem_of_nil in He| |done].
    intros c s [Hupper Hcjk]. by apply no_entity_at. }
  split; [done|].
  unfold analyze. cbn [top_entities]. unfold _extract_entities. rewrite Hpooled.
  pose proof (list_of_set_perm [] Hset) as Hempty. cbn [stable_dedupe] in Hempty.
  apply Permutation_nil_r in Hempty. by rewrite Hempty.
Qed.

(** X7.  Every entity is a piece of the text: the text is something, then the
    entity, then something; and no entity is empty. *)
Theorem entities_are_pieces_of_the_text self text e :
  set_iteration →
  e ∈ top_entities (analyze self text) →
  e ≠ [] ∧ ∃ before after, text = before ++ e ++ after.
Proof.
  intros Hset He. unfold analyze in He. cbn [top_entities] in He.
  apply subseteq_take in He. unfold _extract_entities in He.
  rewrite (list_of_set_perm _ Hset) in He.
  apply (proj1 (stable_dedupe_elem _ _)) in He.
  unfold pooled_entities in He.
  apply list_elem_of_bind in He as (pattern & He & _).
  by apply findall_skip_piece in He.
Qed.

End AnalyzerEdges.


(* ===================================================================== *)
(** * More on the filter *)
(* ===================================================================== *)

Section TreeProperties.
Import Py Filter.

(** Induction over a parse tree: a tag may assume the property of its
    children. *)
Lemma Node_tree_ind (P : Node → Prop) :
  (∀ s, P (NavigableString s)) →
  (∀ s, P (OtherString s)) →
  (∀ name cls contents, Forall P contents → P (Tag name cls contents)) →
  ∀ node, P node.
Proof.
  intros Hstring Hother Htag. fix IH 1. intros [s|s|name cls contents].
  - apply Hstring.
  - apply Hother.
  - apply Htag. induction contents as [|child contents IHcontents].
    + constructor.
    + constructor; [apply IH|apply IHcontents].
Qed.

Lemma decompose_in_heads selected node :
  match decompose_in selected node with
  | Some node' =>
      tag_heads node' ⊆ tag_heads node
      ∧ Forall (λ h, selected h.1 h.2 = false) (tag_heads node')
  | None => True
  end.
Proof.
  induction node as [s|s|name cls contents IH] using Node_tree_ind;
    cbn [decompose_in tag_heads]; [by split; [|constructor]..|].
  destruct (selected name cls) eqn:Hsel; [done|].
  assert (omap (decompose_in selected) contents ≫= tag_heads
            ⊆ contents ≫= tag_heads
          ∧ Forall (λ h, selected h.1 h.2 = false)
              (omap (decompose_in selected) contents ≫= tag_heads)) as [Hsub Hall].
  { induction IH as [|child contents Hchild _ IHrest]; [by split; [|constructor]|].
    destruct IHrest as [Hsub Hall]. cbn [omap list_omap].
    destruct (decompose_in selected child) as [child'|].
    - destruct Hchild as [Hsub' Hall']. rewrite !bind_cons. split.
      + intros h [Hh|Hh]%elem_of_app; apply elem_of_app; [left|right]; auto.
      + apply Forall_app. by split.
    - rewrite bind_cons. split; [|done].
      intros h Hh. apply elem_of_app. right. by apply Hsub. }
  split.
  - intros h [->|Hh]%elem_of_cons; [apply list_elem_of_here|].
    apply list_elem_of_further. by apply Hsub.
  - constructor; [done|done].
Qed.

(** Removal leaves no selected tag, and adds none. *)
Lemma decompose_all_heads selected nodes :
  decompose_all selected nodes ≫= tag_heads ⊆ nodes ≫= tag_heads
  ∧ Forall (λ h, selected h.1 h.2 = false) (decompose_all selected nodes ≫= tag_heads).
Proof.
  unfold decompose_all.
  induction nodes as [|node nodes [Hsub Hall]]; [by split; [|constructor]|].
  cbn [omap list_omap]. pose proof (decompose_in_heads selected node) as Hnode.
  destruct (decompose_in selected node) as [node'|].
  - destruct Hnode as [Hsub' Hall']. rewrite !bind_cons. split.
    + intros h [Hh|Hh]%elem_of_app; apply elem_of_app; [left|right]; auto.
    + apply Forall_app. by split.
  - rewrite bind_cons. split; [|done].
    intros h Hh. apply elem_of_app. right. by apply Hsub.
Qed.

(** One removal after the other: no tag that any of them selects is left. *)
Lemma decompose_each_heads {X} (selector : X → str → option (list str) → bool)
    (xs : list X) nodes :
  foldl (λ soup x, decompose_all (selector x) soup) nodes xs ≫= tag_heads
    ⊆ nodes ≫= tag_heads
  ∧ Forall (λ h, Forall (λ x, selector x h.1 h.2 = false) xs)
      (foldl (λ soup x, decompose_all (selector x) soup) nodes xs ≫= tag_heads).
Proof.
  revert nodes. induction xs as [|x xs IH]; intros nodes; cbn [foldl].
  - split; [done|]. apply Forall_forall. intros h _. constructor.
  - destruct (IH (decompose_all (selector x) nodes)) as [Hsub Hall].
    destruct (decompose_all_heads (selector x) nodes) as [Hsub' Hall'].
    split; [by etrans|].
    apply Forall_forall. intros h Hh. constructor.
    + rewrite Forall_forall in Hall'. apply Hall'. by apply Hsub.
    + rewrite Forall_forall in Hall. by apply Hall.
Qed.

(** A tag that [find_all] returns is a tag of the tree, and so are the tags
    inside it. *)
Lemma find_in_heads selected node tag :
  tag ∈ find_in selected node →
  tag_heads tag ⊆ tag_heads node
  ∧ ∃ name cls contents, tag = Tag name cls contents ∧ selected name cls = true.
Proof.
  induction node as [s|s|name cls contents IH] using Node_tree_ind;
    cbn [find_in]; [by intros ?%elem_of_nil..|].
  intros [Hhere|Hbelow]%elem_of_app.
  - destruct (selected name cls) eqn:Hsel; [|by apply elem_of_nil in Hhere].
    apply list_elem_of_singleton in Hhere as ->. split; [done|]. by eexists _, _, _.
  - apply list_elem_of_bind in Hbelow as (child & Hin & Hchild).
    rewrite Forall_forall in IH. destruct (IH child Hchild Hin) as [Hsub Htag].
    split; [|done]. intros h Hh. cbn [tag_heads]. apply list_elem_of_further.
    apply list_elem_of_bind. exists child. split; [by apply Hsub|done].
Qed.

Lemma find_all_heads selected nodes tag :
  tag ∈ find_all selected nodes →
  tag_heads tag ⊆ nodes ≫= tag_heads
  ∧ ∃ name cls contents, tag = Tag name cls contents ∧ selected name cls = true.
Proof.
  unfold find_all. intros (node & Hin & Hnode)%list_elem_of_bind.
  destruct (find_in_heads _ _ _ Hin) as [Hsub Htag]. split; [|done].
  intros h Hh. apply list_elem_of_bind. exists node. split; [by apply Hsub|done].
Qed.

(** A wider selection finds at least the same tags. *)
Lemma find_in_mono (selected selected' : str → option (list str) → bool) node tag :
  (∀ name cls, selected name cls = true → selected' name cls = true) →
  tag ∈ find_in selected node → tag ∈ find_in selected' node.
Proof.
  intros Hwider.
  induction node as [s|s|name cls contents IH] using Node_tree_ind;
    cbn [find_in]; [done..|].
  intros [Hhere|Hbelow]%elem_of_app; apply elem_of_app.
  - left. destruct (selected name cls) eqn:Hsel; [|by apply elem_of_nil in Hhere].
    by rewrite (Hwider _ _ Hsel).
  - right. apply list_elem_of_bind in Hbelow as (child & Hin & Hchild).
    apply list_elem_of_bind. exists child. split; [|done].
    rewrite Forall_forall in IH. by apply IH.
Qed.

Lemma find_all_mono (selected selected' : str → option (list str) → bool) nodes tag :
  (∀ name cls, selected name cls = true → selected' name cls = true) →
  tag ∈ find_all selected nodes → tag ∈ find_all selected' nodes.
Proof.
  unfold find_all. intros Hwider (node & Hin & Hnode)%list_elem_of_bind.
  apply list_elem_of_bind. exists node. split; [by eapply find_in_mono|done].
Qed.

Lemma join_length sep parts :
  length (join sep parts)
  = sum_list_with length parts + length sep * (length parts - 1).
Proof.
  induction parts as [|p parts IH]; [simpl; lia|].
  destruct parts as [|q parts]; [simpl; lia|].
  change (join sep (p :: q :: parts)) with (p ++ sep ++ join sep (q :: parts)).
  rewrite !length_app, IH. simpl. lia.
Qed.

End TreeProperties.

Section SubstitutionProperties.
Import Py Re.

(** After a substitution, a character is one of the replacement or one of
    the text at which no match starts. *)
Lemma sub_skip_elem r repl (p : codepoint → bool) skip s c :
  (∀ c s', p c = true → ∃ n, match_length r (c :: s') = Some (S n)) →
  c ∈ sub_skip r repl skip s → c ∈ repl ∨ (c ∈ s ∧ p c = false).
Proof.
  intros Hstart. revert skip. induction s as [|d s IH]; intros skip; cbn [sub_skip].
  { by intros ?%elem_of_nil. }
  assert (∀ k, c ∈ sub_skip r repl k s → c ∈ repl ∨ (c ∈ d :: s ∧ p c = false))
    as Hlater.
  { intros k Hin. destruct (IH _ Hin) as [?|[? ?]]; [by left|right].
    split; [by apply list_elem_of_further|done]. }
  destruct skip; [|apply Hlater].
  destruct (match_length r (d :: s)) as [[|n]|] eqn:Hmatch.
  - intros [Heq|Hin]%elem_of_cons; [|by eapply Hlater].
    right. rewrite Heq. split; [apply list_elem_of_here|].
    destruct (p d) eqn:Hd; [|done].
    destruct (Hstart d s Hd) as [n Hn]. congruence.
  - intros [Hin|Hin]%elem_of_app; [by left|by eapply Hlater].
  - intros [Heq|Hin]%elem_of_cons; [|by eapply Hlater].
    right. rewrite Heq. split; [apply list_elem_of_here|].
    destruct (p d) eqn:Hd; [|done].
    destruct (Hstart d s Hd) as [n Hn]. congruence.
Qed.

(** Where no match starts anywhere, substitution changes nothing. *)
Lemma sub_skip_none r repl (bad : codepoint → Prop) s :
  (∀ c s', bad c → match_length r (c :: s') = None) →
  Forall bad s → sub_skip r repl 0 s = s.
Proof.
  intros Hbad Hs. induction Hs as [|c s Hc Hs IH]; [done|].
  cbn [sub_skip]. by rewrite (Hbad c s Hc), IH.
Qed.

Lemma match_length_class p c s : p c = true → match_length (Class p) (c :: s) = Some 1.
Proof.
  intros Hc. unfold match_length. cbn [matches]. rewrite Hc. cbn.
  f_equal. lia.
Qed.

Lemma iterate_head (step : str → list str) n s :
  (∀ s s1, s1 ∈ step s → length s1 ≤ length s) →
  ∃ rest others, iterate step n 0 s = rest :: others ∧ length rest ≤ length s.
Proof.
  intros Hstep. revert s. induction n as [|n IH]; intros s; cbn [iterate pred].
  - by exists s, [].
  - rewrite decide_True by done.
    destruct (step s) as [|s1 l] eqn:Hs; cbn [mbind list_bind app].
    + by exists s, [].
    + destruct (IH s1) as (rest & others & -> & Hlen).
      eexists rest, _. split; [reflexivity|].
      assert (length s1 ≤ length s); [|lia].
      apply Hstep. rewrite Hs. apply list_elem_of_here.
Qed.

Lemma matches_class_shorter p s s1 : s1 ∈ matches (Class p) s → length s1 ≤ length s.
Proof.
  destruct s as [|c s]; cbn [matches]; [by intros ?%elem_of_nil|].
  destruct (p c); [|by intros ?%elem_of_nil].
  intros ->%list_elem_of_singleton. simpl. lia.
Qed.

Lemma match_length_plus_class p c s :
  p c = true → ∃ n, match_length (Plus (Class p)) (c :: s) = Some (S n).
Proof.
  intros Hc. unfold match_length.
  assert (matches (Plus (Class p)) (c :: s)
          = iterate (matches (Class p)) (length s) 0 s ++ []) as ->.
  { change (matches (Plus (Class p)) (c :: s))
      with ((matches (Class p) (c :: s)
               ≫= λ s1, iterate (matches (Class p)) (length s) 0 s1) ++ []).
    cbn [matches]. rewrite Hc. cbn [mbind list_bind]. by rewrite app_nil_r. }
  destruct (iterate_head (matches (Class p)) (length s) s (matches_class_shorter p))
    as (rest & others & -> & Hlen).
  exists (length s - length rest). cbn [app head fmap option_fmap option_map length].
  f_equal. lia.
Qed.

(** [lstrip] cuts a front off, [rstrip] an end. *)
Lemma lstrip_suffix s : lstrip s `suffix_of` s.
Proof.
  induction s as [|c s IH]; cbn [lstrip]; [done|].
  destruct (isspace c); [by apply suffix_cons_r|done].
Qed.

Lemma rstrip_prefix s : rstrip s `prefix_of` s.
Proof.
  unfold rstrip. apply prefix_suffix_reverse.
  rewrite reverse_involutive. apply lstrip_suffix.
Qed.

Lemma lstrip_head s c : head (lstrip s) = Some c → isspace c = false.
Proof.
  induction s as [|d s IH]; cbn [lstrip]; [done|].
  destruct (isspace d) eqn:Hd; [done|]. by intros [= <-].
Qed.

Lemma strip_elem s c : c ∈ strip s → c ∈ s.
Proof.
  unfold strip. intros Hc.
  destruct (rstrip_prefix (lstrip s)) as [k1 Hk1].
  destruct (lstrip_suffix s) as [k2 Hk2].
  rewrite Hk2, Hk1. rewrite !elem_of_app. auto.
Qed.

Lemma strip_ends s c :
  (head (strip s) = Some c → isspace c = false)
  ∧ (last (strip s) = Some c → isspace c = false).
Proof.
  unfold strip. split.
  - intros Hhead. apply (lstrip_head s).
    destruct (rstrip_prefix (lstrip s)) as [k Hk]. rewrite Hk.
    by destruct (rstrip (lstrip s)).
  - unfold rstrip. rewrite last_reverse. apply lstrip_head.
Qed.

Lemma lstrip_no_space s : Forall (λ c, isspace c = false) s → lstrip s = s.
Proof. intros [|c s' Hc _]; cbn [lstrip]; [done|]. by rewrite Hc. Qed.

Lemma strip_no_space s : Forall (λ c, isspace c = false) s → strip s = s.
Proof.
  intros Hs. unfold strip, rstrip. rewrite (lstrip_no_space s Hs).
  rewrite lstrip_no_space; [apply reverse_involutive|].
  by apply Forall_reverse.
Qed.

End SubstitutionProperties.

Section FilterMore.
Import Py Re Filter.

(** X8.  [clean_text] leaves no control character and no white space other than
    the space, invents no character but the space, and neither starts nor
    ends with white space. *)
Theorem clean_text_is_clean text :
  (∀ c, c ∈ clean_text text →
        control_character c = false
        ∧ (isspace c = true → c = 32%N)
        ∧ (c = 32%N ∨ c ∈ text))
  ∧ (∀ c, head (clean_text text) = Some c → isspace c = false)
  ∧ (∀ c, last (clean_text text) = Some c → isspace c = false).
Proof.
  unfold clean_text. split; [|split; intros c; apply strip_ends].
  intros c Hc%strip_elem. unfold sub in Hc.
  apply (sub_skip_elem _ _ control_character) in Hc
    as [Hc|[Hc Hcontrol]]; [by apply elem_of_nil in Hc| |].
  2:{ intros d s' Hd. exists 0. by apply match_length_class. }
  apply (sub_skip_elem _ _ isspace) in Hc as [Hc|[Hc Hspace]].
  - apply list_elem_of_singleton in Hc as ->. by split_and!; [|..|left].
  - split_and!; [done|by rewrite Hspace|by right].
  - intros d s'. apply match_length_plus_class.
Qed.

(** X9.  A text without white space and without control characters is its own
    cleaned form. *)
Theorem clean_text_keeps_clean_text text :
  Forall (λ c, isspace c = false ∧ control_character c = false) text →
  clean_text text = text.
Proof.
  intros Htext. unfold clean_text, sub.
  rewrite (sub_skip_none (Plus (Class isspace)) _
             (λ c, isspace c = false ∧ control_character c = false));
    [|intros c s [Hc _]; by apply match_length_out, matches_plus_class_out|done].
  rewrite (sub_skip_none (Class control_character) _
             (λ c, isspace c = false ∧ control_character c = false));
    [|intros c s [_ Hc]; by apply match_length_out, matches_class_out|done].
  apply strip_no_space. eapply Forall_impl; [exact Htext|]. by intros c [? _].
Qed.

Context `{Env}.

(** [extract], with its two removal loops named. *)
Lemma extract_from_cleaned self html :
  title (extract self html)
  = default []
      (get_text_strip
         <$> match head (find_all (named [lit "h1"]) (cleaned html)) with
             | Some tag => Some tag
             | None => head (find_all (named [lit "title"]) (cleaned html))
             end)
  ∧ paragraphs (extract self html)
    = filter (λ text, (min_paragraph_length self ≤ Z.of_nat (length text))%Z)
        (get_text_strip
           <$> find_all (named [lit "p"; lit "article"]) (cleaned html)).
Proof. split; reflexivity. Qed.

(** No tag of the cleaned tree has a name of [REMOVE_TAGS] or a class that
    one of [NOISE_CLASSES] is found in. *)
Lemma cleaned_heads html name cls :
  (name, cls) ∈ cleaned html ≫= tag_heads →
  (name ∉ REMOVE_TAGS) ∧ Forall (λ k, class_like k name cls = false) NOISE_CLASSES.
Proof.
  unfold cleaned. intros Hin.
  destruct (decompose_each_heads class_like NOISE_CLASSES
              (foldl (λ soup tag, decompose_all (named [tag]) soup)
                 (html_parser html) REMOVE_TAGS)) as [Hsub Hclasses].
  destruct (decompose_each_heads (λ tag, named [tag]) REMOVE_TAGS (html_parser html))
    as [_ Htags].
  rewrite Forall_forall in Hclasses, Htags. split.
  - intros Hname. specialize (Htags _ (Hsub _ Hin)).
    rewrite Forall_forall in Htags. specialize (Htags name Hname).
    cbn [fst snd] in Htags. unfold named in Htags.
    apply bool_decide_eq_false in Htags. apply Htags, list_elem_of_here.
  - apply (Hclasses _ Hin).
Qed.

(** X10.  Title and paragraphs come from a tree without the removed tags: each
    paragraph is the stripped text of a [p] or [article] tag of the cleaned
    tree, the title is empty or the stripped text of an [h1] or [title] tag
    of it, and neither that tag nor any tag inside it has a name of
    [REMOVE_TAGS] or a class that matches one of [NOISE_CLASSES]. *)
Theorem extract_reads_the_cleaned_tree self html :
  (∀ p, p ∈ paragraphs (extract self html) →
     ∃ tag, tag ∈ find_all (named [lit "p"; lit "article"]) (cleaned html)
            ∧ p = get_text_strip tag
            ∧ Forall (λ h, (h.1 ∉ REMOVE_TAGS)
                           ∧ Forall (λ k, class_like k h.1 h.2 = false) NOISE_CLASSES)
                (tag_heads tag))
  ∧ (title (extract self html) = []
     ∨ ∃ tag, tag ∈ find_all (named [lit "h1"; lit "title"]) (cleaned html)
              ∧ title (extract self html) = get_text_strip tag
              ∧ Forall (λ h, (h.1 ∉ REMOVE_TAGS)
                             ∧ Forall (λ k, class_like k h.1 h.2 = false) NOISE_CLASSES)
                  (tag_heads tag)).
Proof.
  destruct (extract_from_cleaned self html) as [Htitle Hparagraphs].
  assert (∀ selected tag, tag ∈ find_all selected (cleaned html) →
            Forall (λ h, (h.1 ∉ REMOVE_TAGS)
                         ∧ Forall (λ k, class_like k h.1 h.2 = false) NOISE_CLASSES)
              (tag_heads tag)) as Hclean.
  { intros selected tag [Hsub _]%find_all_heads. apply Forall_forall.
    intros [name cls] Hh. apply (cleaned_heads html). by apply Hsub. }
  split.
  - intros p Hp. rewrite Hparagraphs in Hp.
    apply list_elem_of_filter in Hp as [_ Hp].
    apply list_elem_of_fmap in Hp as (tag & -> & Htag).
    exists tag. split_and!; [done|done|by eapply Hclean].
  - rewrite Htitle.
    assert (∀ name tag, name ∈ [lit "h1"; lit "title"] →
              head (find_all (named [name]) (cleaned html)) = Some tag →
              tag ∈ find_all (named [lit "h1"; lit "title"]) (cleaned html)) as Hfound.
    { intros name tag Hname Hhead.
      assert (tag ∈ find_all (named [name]) (cleaned html)) as Htag.
      { destruct (find_all (named [name]) (cleaned html)); [done|].
        injection Hhead as ->. apply list_elem_of_here. }
      eapply find_all_mono; [|exact Htag]. intros tname cls. unfold named.
      intros Hsel%bool_decide_eq_true. apply list_elem_of_singleton in Hsel as ->.
      by apply bool_decide_eq_true. }
    destruct (head (find_all (named [lit "h1"]) (cleaned html))) as [tag|] eqn:Hh1.
    { right. exists tag.
      assert (tag ∈ find_all (named [lit "h1"; lit "title"]) (cleaned html)) as Htag
        by (eapply Hfound; [|done]; apply list_elem_of_here).
      split_and!; [done|done|by eapply Hclean]. }
    destruct (head (find_all (named [lit "title"]) (cleaned html))) as [tag|] eqn:Htt.
    { right. exists tag.
      assert (tag ∈ find_all (named [lit "h1"; lit "title"]) (cleaned html)) as Htag
        by (eapply Hfound; [|done]; apply list_elem_of_further, list_elem_of_here).
      split_and!; [done|done|by eapply Hclean]. }
    by left.
Qed.

(** X11.  [word_count] counts the characters of the body: those of the paragraphs
    and two for each gap between them. *)
Theorem extract_word_count self html :
  word_count (extract self html)
  = sum_list_with length (paragraphs (extract self html))
    + 2 * (length (paragraphs (extract self html)) - 1).
Proof.
  destruct (extract_body self html) as [Hbody ->].
  rewrite Hbody, join_length.
  generalize (paragraphs (extract self html)). intros ps. reflexivity.
Qed.

End FilterMore.

(* ===================================================================== *)
(** * More on the crawler and the connectors *)
(* ===================================================================== *)

Section CrawlerMore.
Import Py Net Crawler.
Context `{World}.

(** How the batch runs: the first URL is fetched, then the others,
    unless the first fetch raised. *)
Lemma fetch_multiple_cons self url urls log :
  fetch_multiple self (url :: urls) log =
    match fetch self url log with
    | (Returns r, log1) =>
        match fetch_multiple self urls log1 with
        | (Returns rs, log2) => (Returns (r :: rs), log2)
        | (Raises e, log2) => (Raises e, log2)
        end
    | (Raises e, log1) => (Raises e, log1)
    end.
Proof.
  unfold fetch_multiple.
  change (mapM (fetch self) (url :: urls))
    with (r ← fetch self url; rs ← mapM (fetch self) urls; mret (r :: rs)).
  rewrite bind_run. destruct (fetch self url log) as [[r|e] log1]; [|done].
  rewrite bind_run. by destruct (mapM (fetch self) urls log1) as [[rs|e] log2].
Qed.

(** X12.  [fetch_multiple] fetches the URLs of the list in order, one GET
    request each.  When it returns, it has fetched them all, whatever the
    fetches gave: one result per URL, for that URL, a success exactly when
    its status code is 200.  It raises when the GET for one of the URLs
    raises an exception that is no [RequestException]: that exception
    leaves [fetch_multiple] at the first such URL, and the URLs after it
    are not fetched.  In a world where no GET does that it returns. *)
Theorem fetch_multiple_fetches_in_order self urls log :
  match fetch_multiple self urls log with
  | (Returns results, log') =>
      log' = log ++ ((λ url, GET url (headers self) (timeout self)) <$> urls)
      ∧ length results = length urls
      ∧ Crawler.url <$> results = urls
      ∧ Forall (λ r, success r = true ↔ status_code r = 200%Z) results
  | (Raises e, log') =>
      ∃ k url,
        urls !! k = Some url
        ∧ log' = log ++ ((λ url, GET url (headers self) (timeout self))
                         <$> take (S k) urls)
        ∧ session_get
            (log ++ ((λ url, GET url (headers self) (timeout self))
                     <$> take k urls))
            (GET url (headers self) (timeout self))
          = GetRaisedOther e
        ∧ (∀ j earlier e',
             j < k → urls !! j = Some earlier →
             session_get
               (log ++ ((λ url, GET url (headers self) (timeout self))
                        <$> take j urls))
               (GET earlier (headers self) (timeout self))
             ≠ GetRaisedOther e')
  end
  ∧ ((∀ log' req e, session_get log' req ≠ GetRaisedOther e) →
     ∃ results,
       fetch_multiple self urls log
       = (Returns results,
          log ++ ((λ url, GET url (headers self) (timeout self)) <$> urls))).
Proof.
  assert (match fetch_multiple self urls log with
          | (Returns results, log') =>
              log' = log ++ ((λ url, GET url (headers self) (timeout self)) <$> urls)
              ∧ length results = length urls
              ∧ Crawler.url <$> results = urls
              ∧ Forall (λ r, success r = true ↔ status_code r = 200%Z) results
          | (Raises e, log') =>
              ∃ k url,
                urls !! k = Some url
                ∧ log' = log ++ ((λ url, GET url (headers self) (timeout self))
                                 <$> take (S k) urls)
                ∧ session_get
                    (log ++ ((λ url, GET url (headers self) (timeout self))
                             <$> take k urls))
                    (GET url (headers self) (timeout self))
                  = GetRaisedOther e
                ∧ (∀ j earlier e',
                     j < k → urls !! j = Some earlier →
                     session_get
                       (log ++ ((λ url, GET url (headers self) (timeout self))
                                <$> take j urls))
                       (GET earlier (headers self) (timeout self))
                     ≠ GetRaisedOther e')
          end) as Hrun.
  { revert log. induction urls as [|url urls IH]; intros log.
    { cbn. rewrite app_nil_r. by split_and!. }
    rewrite fetch_multiple_cons, fetch_run.
    set (req := GET url (headers self) (timeout self)).
    assert (∀ r : CrawlResult,
              Crawler.url r = url →
              (success r = true ↔ status_code r = 200%Z) →
              (∀ e, session_get log req ≠ GetRaisedOther e) →
              match
                match fetch_multiple self urls (log ++ [req]) with
                | (Returns rs, log2) => (Returns (r :: rs), log2)
                | (Raises e, log2) => (Raises e, log2)
                end
              with
              | (Returns results, log') =>
                  log' = log ++ ((λ url, GET url (headers self) (timeout self))
                                 <$> url :: urls)
                  ∧ length results = length (url :: urls)
                  ∧ Crawler.url <$> results = url :: urls
                  ∧ Forall (λ r, success r = true ↔ status_code r = 200%Z) results
              | (Raises e, log') =>
                  ∃ k url0,
                    (url :: urls) !! k = Some url0
                    ∧ log' = log ++ ((λ url, GET url (headers self) (timeout self))
                                     <$> take (S k) (url :: urls))
                    ∧ session_get
                        (log ++ ((λ url, GET url (headers self) (timeout self))
                                 <$> take k (url :: urls)))
                        (GET url0 (headers self) (timeout self))
                      = GetRaisedOther e
                    ∧ (∀ j earlier e',
                         j < k → (url :: urls) !! j = Some earlier →
                         session_get
                           (log ++ ((λ url, GET url (headers self) (timeout self))
                                    <$> take j (url :: urls)))
                           (GET earlier (headers self) (timeout self))
                         ≠ GetRaisedOther e')
              end) as Hstep.
    { intros r Hurl Hsuccess Hcaught.
      specialize (IH (log ++ [req])).
      destruct (fetch_multiple self urls (log ++ [req])) as [[rs|e] log2].
      - destruct IH as (-> & Hlen & Hurls & Hall). split_and!.
        + by rewrite fmap_cons, <-app_assoc.
        + cbn [length]. by rewrite Hlen.
        + by rewrite fmap_cons, Hurl, Hurls.
        + by constructor.
      - destruct IH as (k & later & Hk & -> & Hraised & Hfirst).
        exists (S k), later. split_and!.
        + done.
        + by rewrite (firstn_cons (S k)), fmap_cons, <-app_assoc.
        + by rewrite firstn_cons, fmap_cons, cons_middle, app_assoc.
        + intros [|j] earlier e' Hj Hearlier.
          * cbn in Hearlier. injection Hearlier as <-.
            cbn [take fmap list_fmap]. rewrite app_nil_r. apply Hcaught.
          * cbn in Hearlier. rewrite firstn_cons, fmap_cons, cons_middle, app_assoc.
            apply Hfirst; [lia|done]. }
    destruct (session_get log req) as [status text|e|e] eqn:Hget.
    - apply Hstep; [done| |done]. cbn [success status_code].
      apply bool_decide_eq_true.
    - by apply Hstep.
    - exists 0, url. cbn [take fmap list_fmap]. rewrite app_nil_r.
      split_and!; [done|done|done|]. intros j earlier e' Hj. lia. }
  split; [exact Hrun|].
  intros Hworld.
  destruct (fetch_multiple self urls log) as [[results|e] log'].
  - destruct Hrun as (-> & _). by exists results.
  - destruct Hrun as (k & url & _ & _ & Hraised & _). by apply Hworld in Hraised.
Qed.

End CrawlerMore.

Section LLMMore.
Import Py Net LLM.
Context `{World}.

(** X13.  Whatever the prompt, the system prompt and the answer of the
    backend, [generate] returns a response for the connector's model,
    having sent nothing (exactly when the connector has no key) or one POST
    request with a timeout of 60 seconds.  A success has no error message
    and for content the value the backend gave, unchecked; a failure has
    the empty string for content and no tokens, and for error message the
    text of the missing key, the text of the exception, or the value of the
    message of the error payload, unchecked (so [None] for a [null]).  An
    empty system prompt is the same as none. *)
Theorem generate_response_invariant (self : Connector) prompt system_prompt log :
  (∃ response log',
     generate self prompt system_prompt log = (Returns response, log')
     ∧ (if truthy (api_key (settings self))
        then ∃ url bearer body,
               log' = log ++ [POST url bearer body 60]
               ∧ match post_llm log (POST url bearer body 60) with
                 | LLMCompletion text _ =>
                     success response = true ∧ content response = text
                 | LLMErrorPayload message =>
                     success response = false ∧ error_message response = message
                 | LLMRaised e =>
                     success response = false ∧ error_message response = DStr e
                 end
        else log' = log
             ∧ success response = false
             ∧ error_message response = DStr NOT_CONFIGURED)
     ∧ model response = model_name (settings self)
     ∧ (success response = true → error_message response = DNone)
     ∧ (success response = false →
        content response = DStr [] ∧ tokens_used response = 0%Z))
  ∧ generate self prompt (Some []) log = generate self prompt None log.
Proof.
  split; [|by destruct self as [[s]|[s]]].
  destruct self as [[s]|[s]]; cbn [generate Connector_connector settings openai gemini
                                     OpenAI_connector Gemini_connector].
  - unfold OpenAIConnector_generate. cbn [openai].
    destruct (truthy (api_key s)); cbn [negb].
    + rewrite bind_run. unfold send_request.
      eexists _, _. split; [reflexivity|].
      split; [eexists _, _, _; split; [reflexivity|]|];
        destruct (post_llm _ _); by split_and!.
    + eexists _, _. split; [reflexivity|]. by split_and!.
  - unfold GeminiConnector_generate. cbn [gemini].
    destruct (truthy (api_key s)); cbn [negb].
    + rewrite bind_run. unfold send_request.
      eexists _, _. split; [reflexivity|].
      split; [eexists _, _, _; split; [reflexivity|]|];
        destruct (post_llm _ _); by split_and!.
    + eexists _, _. split; [reflexivity|]. by split_and!.
Qed.

End LLMMore.

Section MessagingMore.
Import Py Net Messaging.
Context `{World}.

(** X14.  Every connector's [send] returns a result that names its platform and
    sends at most one request, a POST with a timeout of 10 seconds whose
    text is the message.  When nothing was sent the result is a failure
    with an error message. *)
Theorem send_sends_at_most_once (self : Connector) message kwargs log :
  ∃ result log',
    send self message kwargs log = (Returns result, log')
    ∧ platform result = platform_of self
    ∧ (log' = log
       ∨ ∃ url bearer body,
           log' = log ++ [POST url bearer body 10]
           ∧ text_of (POST url bearer body 10) = Some message)
    ∧ (log' = log → success result = false ∧ is_Some (error_message result)).
Proof.
  destruct (send_run self message kwargs log)
    as (result & log' & Hrun & Hplatform & Hsent).
  exists result, log'. split_and!; [done|done|..].
  - destruct Hsent as [[-> _]|Hsent]; [by left|by right].
  - intros ->. destruct Hsent as [[_ ?]|(url & bearer & body & Hlog & _)]; [done|].
    apply (f_equal length) in Hlog. rewrite length_app in Hlog.
    cbn [length] in Hlog. lia.
Qed.

(** X15.  The two webhooks read the status differently.  With a webhook URL,
    each posts the message once; Discord counts 200 and 204 as success,
    Slack 200 only.  The error message is the response text for a status
    from 400 to 599 and absent for every other status, so a success has no
    error message; an exception gives a failure with the exception's
    text. *)
Theorem webhook_status_rules url message kwargs log :
  truthy (Some url) = true →
  let discord := POST url None (DiscordBody message) 10 in
  let slack := POST url None (SlackBody message) 10 in
  (∃ result,
     send (Discord {| discord_webhook_url := Some url |}) message kwargs log
     = (Returns result, log ++ [discord])
     ∧ match post_webhook log discord with
       | WebhookResponse status text =>
           (success result = true ↔ status = 200%Z ∨ status = 204%Z)
           ∧ error_message result
             = (if bool_decide (400 ≤ status < 600)%Z then Some text else None)
           ∧ (success result = true → error_message result = None)
       | WebhookRaised e => success result = false ∧ error_message result = Some e
       end)
  ∧ (∃ result,
       send (Slack {| slack_webhook_url := Some url |}) message kwargs log
       = (Returns result, log ++ [slack])
       ∧ match post_webhook log slack with
         | WebhookResponse status text =>
             (success result = true ↔ status = 200%Z)
             ∧ error_message result
               = (if bool_decide (400 ≤ status < 600)%Z then Some text else None)
             ∧ (success result = true → error_message result = None)
         | WebhookRaised e => success result = false ∧ error_message result = Some e
         end).
Proof.
  intros Hurl discord slack. split.
  - cbn [send Connector_connector Discord_connector]. unfold Discord_send.
    cbn [discord_webhook_url]. rewrite Hurl. cbn [negb format_optional].
    rewrite bind_run. unfold send_request. eexists. split; [reflexivity|].
    fold discord. destruct (post_webhook log discord) as [e|status text];
      cbn [success error_message failed]; [done|].
    unfold response_ok. split_and!.
    + rewrite bool_decide_eq_true. rewrite !elem_of_cons, elem_of_nil. tauto.
    + by destruct (bool_decide (400 ≤ status < 600)%Z).
    + intros Hok%bool_decide_eq_true. rewrite bool_decide_eq_false_2; [done|].
      rewrite !elem_of_cons, elem_of_nil in Hok. lia.
  - cbn [send Connector_connector Slack_connector]. unfold Slack_send.
    cbn [slack_webhook_url]. rewrite Hurl. cbn [negb format_optional].
    rewrite bind_run. unfold send_request. eexists. split; [reflexivity|].
    fold slack. destruct (post_webhook log slack) as [e|status text];
      cbn [success error_message failed]; [done|].
    unfold response_ok. split_and!.
    + apply bool_decide_eq_true.
    + by destruct (bool_decide (400 ≤ status < 600)%Z).
    + intros Hok%bool_decide_eq_true. rewrite bool_decide_eq_false_2; [done|]. lia.
Qed.

(** X16.  A LINE connector without a channel access token sends nothing, whatever
    the method and whatever recipient is given: [send], [send_to_group] and
    [send_image] return the failure that names the token, and so does
    [send_with_quick_reply] when each of its first 13 options has a
    label. *)
Theorem line_without_token self message group_id image_url preview_url options
    kwargs log :
  truthy (channel_access_token self) = false →
  let failure := failed "line" (lit "LINE Channel Access Token not configured") in
  send self message kwargs log = (Returns failure, log)
  ∧ send_to_group self message group_id log = (Returns failure, log)
  ∧ send_image self image_url preview_url kwargs log = (Returns failure, log)
  ∧ (Forall (λ opt, is_Some (opt !! "label")) (take 13 options) →
     send_with_quick_reply self message options kwargs log = (Returns failure, log)).
Proof.
  intros Htoken failure.
  assert (∀ messages user,
            _send_messages self messages user log = (Returns failure, log)) as Hsend.
  { intros messages user. unfold _send_messages. by rewrite Htoken. }
  split_and!; [apply Hsend..|].
  intros Hlabels. unfold send_with_quick_reply.
  rewrite bind_run, quick_reply_items_run.
  destruct (mapM _ (take 13 options)) as [items|] eqn:Hitems; [apply Hsend|].
  apply mapM_None in Hitems. apply Exists_exists in Hitems as (opt & Hin & Hnone).
  rewrite Forall_forall in Hlabels. destruct (Hlabels opt Hin) as [label Hlabel].
  by rewrite Hlabel in Hnone.
Qed.

(** X17.  The recipient of a LINE push.  With a token, [send_to_group] pushes the
    message to the group it is given; given the empty string it does what
    [send] does without a recipient: it pushes to the connector's own user,
    or fails without sending when there is none.  A [user_id] keyword that
    is not empty goes before the connector's own user. *)
Theorem line_recipient self message group_id kwargs log :
  truthy (channel_access_token self) = true →
  (group_id ≠ [] →
   ∃ result,
     send_to_group self message group_id log
     = (Returns result,
        log ++ [POST PUSH_API_URL (channel_access_token self)
                  (LinePush group_id [TextMessage message]) 10]))
  ∧ send_to_group self message [] log = send self message ∅ log
  ∧ (∀ user : str, kwargs !! "user_id" = Some user → user ≠ [] →
     ∃ result,
       send self message kwargs log
       = (Returns result,
          log ++ [POST PUSH_API_URL (channel_access_token self)
                    (LinePush user [TextMessage message]) 10]))
  ∧ (truthy (user_id self) = false →
     send self message ∅ log
     = (Returns (failed "line" (lit "LINE User ID not configured")), log)).
Proof.
  intros Htoken.
  assert (∀ (user : str) (kw : gmap string str),
            kw !! "user_id" = Some user → user ≠ [] →
            ∃ result,
              Line_send self message kw log
              = (Returns result,
                 log ++ [POST PUSH_API_URL (channel_access_token self)
                           (LinePush user [TextMessage message]) 10])) as Hto.
  { intros user kw Hkw Huser.
    destruct (send_messages_run self [TextMessage message] (kw !! "user_id") log)
      as [result Hrun].
    exists result. unfold Line_send. rewrite Hrun, Htoken, Hkw.
    by destruct user. }
  split_and!.
  - intros Hgroup. apply Hto; [apply lookup_singleton_eq|done].
  - unfold send_to_group. cbn [send Line_connector]. unfold Line_send.
    by rewrite lookup_singleton_eq, lookup_empty.
  - intros user Hkw Huser. by apply Hto.
  - intros Huser. cbn [send Line_connector]. unfold Line_send, _send_messages.
    rewrite lookup_empty, Htoken. unfold or_else. cbn [negb truthy]. by rewrite Huser.
Qed.

(** X18.  [send_with_quick_reply] needs a label on each of the first 13 options:
    when one of them has none it raises [KeyError] for ["label"] and sends
    nothing, whether or not the connector has a token and a recipient. *)
Theorem quick_reply_missing_label self message options kwargs log :
  Exists (λ opt, opt !! "label" = None) (take 13 options) →
  send_with_quick_reply self message options kwargs log
  = (Raises (KeyError "label"), log).
Proof.
  intros Hmissing. unfold send_with_quick_reply.
  rewrite bind_run, quick_reply_items_run.
  destruct (mapM _ (take 13 options)) as [items|] eqn:Hitems; [|done].
  apply mapM_Some in Hitems. exfalso.
  apply Exists_exists in Hmissing as (opt & Hin & Hnone).
  apply list_elem_of_lookup in Hin as [i Hi].
  destruct (Forall2_lookup_l _ _ _ _ _ Hitems Hi) as (item & _ & Hitem).
  by rewrite Hnone in Hitem.
Qed.

End MessagingMore.

(* ===================================================================== *)
(** * More on the pipeline *)
(* ===================================================================== *)

Section PipelineMore.
Import Py Net Main.
Context `{World, Analyzer.Env, Filter.Env}.
#[local] Existing Instances LLM.Connector_connector Messaging.Connector_connector.



(** X21.  The requests of a run, whether it returns or raises: the GET of
    the fetch first, then at most two POST requests.  None follows a fetch
    that failed, whose report has the [error] key, or that raised; without
    a notification at most one follows, the request for the summary, and
    none at all when the language model has no key. *)
Theorem process_request_budget self url notify log :
  ∃ result rest,
    process self url notify log
    = (result,
       log ++ GET url (Crawler.headers (crawler self)) (Crawler.timeout (crawler self))
              :: rest)
    ∧ length rest ≤ 2
    ∧ Forall (λ req, ∃ url bearer body timeout, req = POST url bearer body timeout) rest
    ∧ (∀ report, result = Returns report → is_Some (report !! "error") → rest = [])
    ∧ (∀ e, session_get log
              (GET url (Crawler.headers (crawler self))
                 (Crawler.timeout (crawler self)))
            = GetRaisedOther e →
       result = Raises e ∧ rest = [])
    ∧ (notify = false ∨ messenger self = None →
       length rest ≤ 1
       ∧ (truthy (LLM.api_key (LLM.settings (llm self))) = false → rest = [])).
Proof.
  set (req := GET url (Crawler.headers (crawler self))
                (Crawler.timeout (crawler self))).
  pose proof (fetch_run (crawler self) url log) as Hfetch. fold req in Hfetch.
  destruct (session_get log req) as [status text|e0|e0] eqn:Hget.
  3:{ rewrite (process_after_raising_fetch self url notify log e0 _ Hfetch).
      exists (Raises e0), [].
      split_and!; [done|cbn; lia|constructor|done| |].
      - by intros e [= <-].
      - intros _. split; [cbn; lia|done]. }
  all: match type of Hfetch with _ = (Returns ?r0, _) => set (r := r0) in Hfetch end.
  all: destruct (Crawler.success r) eqn:Hok.
  all: try (rewrite (process_after_failed_fetch self url notify log r _ Hfetch Hok);
            eexists _, [];
            split_and!; [done|cbn; lia|constructor|done|done|];
            intros _; split; [cbn; lia|done]).
  all: destruct (process_steps self url notify log r _ Hfetch Hok)
         as (summary & log2 & Hsum & Hrun).
  all: destruct (summarize_log (llm self)
                   (take 3000 (Filter.body (Filter.extract (filter self) (Crawler.html r))))
                   (log ++ [req]))
         as (summary' & log2' & Hsum' & Hlog).
  all: rewrite Hsum in Hsum'; injection Hsum' as <- <-.
  all: assert (∃ asked, log2 = (log ++ [req]) ++ asked
                     ∧ length asked ≤ 1
                     ∧ Forall (λ req, ∃ url bearer body timeout,
                                 req = POST url bearer body timeout) asked
                     ∧ (truthy (LLM.api_key (LLM.settings (llm self))) = false →
                        asked = [])) as (asked & -> & Hasked & Hposts & Hnokey)
         by (destruct (truthy _);
             [destruct Hlog as (req' & -> & Hprompt); exists [req'];
              split_and!; [done|done| |done];
              constructor; [by eapply prompt_of_post|constructor]
             |destruct Hlog as [-> _]; exists []; rewrite app_nil_r;
              split_and!; [done|cbn; lia|constructor|done]]).
  all: destruct (slice_error summary) as [e|].
  all: try (rewrite Hrun; exists (Raises e), asked; rewrite <-app_assoc;
            split_and!; [done|lia|done|done|done|]; intros _; by split).
  all: destruct Hrun as (log3 & Hrun & Hquiet & Hsent & _).
  all: assert (∃ told, log3 = ((log ++ [req]) ++ asked) ++ told
                    ∧ length told ≤ 1
                    ∧ Forall (λ req, ∃ url bearer body timeout,
                                req = POST url bearer body timeout) told
                    ∧ (notify = false ∨ messenger self = None → told = []))
         as (told & -> & Htold & Hposts' & Hnotold)
         by (destruct Hsent as [->|(u & b & j & -> & _)];
             [exists []; rewrite app_nil_r;
              split_and!; [done|cbn; lia|constructor|done]
             |exists [POST u b j 10]; split_and!; [done|done|..];
              [constructor; [by eexists _, _, _, _|constructor]
              |intros Hq; apply Hquiet in Hq; apply (f_equal length) in Hq;
               rewrite length_app in Hq; cbn [length] in Hq; lia]]).
  all: eexists _, (asked ++ told); split_and!;
         [rewrite Hrun; f_equal; by rewrite <-!app_assoc
         |rewrite length_app; lia
         |by apply Forall_app
         |intros report Hreport [v Hv]; exfalso;
          apply (f_equal (λ result,
                   match result with
                   | Returns report => report !! "error"
                   | Raises _ => None
                   end)) in Hreport;
          rewrite Hv in Hreport; revert Hreport; unfold full_report;
          rewrite !lookup_insert_ne by discriminate; by rewrite lookup_empty
         |done
         |intros Hq; rewrite (Hnotold Hq), app_nil_r; by split].
Qed.

(** X22.  The notification of a run whose fetch succeeded.  When the slice
    of the summary raises, the run ends before the messenger is called.
    Otherwise the message handed to the messenger is the newspaper sign
    and a space, the title, an empty line and the summary of the report as
    an f-string shows it, whether that summary is the model's text or the
    text of a failed summary, and a request that goes to the messenger
    carries that text. *)
Theorem process_notification_text self url log r log1 connector :
  Crawler.fetch (crawler self) url log = (Returns r, log1) →
  Crawler.success r = true →
  messenger self = Some connector →
  let filtered := Filter.extract (filter self) (Crawler.html r) in
  ∃ summary log2,
    LLM.summarize (llm self) (take 3000 (Filter.body filtered)) log1
    = (Returns summary, log2)
    ∧ match slice_error summary with
      | Some e => process self url true log = (Raises e, log2)
      | None =>
          ∃ report log3,
            process self url true log = (Returns report, log3)
            ∧ report !! "summary" = Some (VDyn summary)
            ∧ (∃ result,
                 Messaging.send connector
                   (NEWS_PREFIX ++ Filter.title filtered ++ [10; 10]%N
                    ++ format_value summary) ∅ log2
                 = (Returns result, log3))
            ∧ (log3 = log2
               ∨ ∃ req, log3 = log2 ++ [req]
                        ∧ Messaging.text_of req
                          = Some (NEWS_PREFIX ++ Filter.title filtered
                                  ++ [10; 10]%N ++ format_value summary))
      end.
Proof.
  intros Hfetch Hok Hmessenger filtered.
  destruct (process_steps self url true log r log1 Hfetch Hok)
    as (summary & log2 & Hsum & Hrun).
  exists summary, log2. split; [exact Hsum|].
  destruct (slice_error summary) as [e|]; [exact Hrun|].
  destruct Hrun as (log3 & Hrun & _ & Hsent & Hsend).
  eexists _, log3. split_and!.
  - exact Hrun.
  - unfold full_report. rewrite !lookup_insert_ne by discriminate.
    apply lookup_insert_eq.
  - by apply Hsend.
  - destruct Hsent as [->|(u & b & j & -> & Htext)]; [by left|right; by eexists].
Qed.



End PipelineMore.

(* ===================================================================== *)
(** * The further properties at concrete inputs *)
(* ===================================================================== *)

(** X4, witness.  The most frequent token of a line of English is [quick], twice; [fox]
    does not occur more often. *)
Lemma first_keyword_witness :
  Analyzer.occurrences (Py.lit "fox")
    (@Analyzer.tokenize Analyzer.env_insertion_order Analyzer.default_analyzer
       (Py.lit "The Quick brown fox 123 a quick FOX")) ≤ 2.
Proof.
  apply (@first_keyword_most_frequent Analyzer.env_insertion_order
           Analyzer.default_analyzer (Py.lit "The Quick brown fox 123 a quick FOX")
           (Py.lit "quick") 2).
  vm_compute. reflexivity.
Defined.

(** X5, witness.  A line of punctuation and spaces has no tokens. *)
Lemma punctuation_witness :
  Analyzer.keywords
    (@Analyzer.analyze Analyzer.env_insertion_order Analyzer.default_analyzer
       (Py.lit "?! -- ...")) = []
  ∧ Analyzer.total_words
      (@Analyzer.analyze Analyzer.env_insertion_order Analyzer.default_analyzer
         (Py.lit "?! -- ...")) = 0
  ∧ Analyzer.unique_words
      (@Analyzer.analyze Analyzer.env_insertion_order Analyzer.default_analyzer
         (Py.lit "?! -- ...")) = 0.
Proof.
  apply (@analyze_without_word_characters Analyzer.env_insertion_order
           Analyzer.default_analyzer (Py.lit "?! -- ...")).
  - reflexivity.
  - repeat constructor.
Defined.

(** X6, witness.  A line in small letters has no entities. *)
Lemma small_letters_witness :
  Analyzer.pooled_entities (Py.lit "breaking news today") = []
  ∧ Analyzer.top_entities
      (@Analyzer.analyze Analyzer.env_insertion_order Analyzer.default_analyzer
         (Py.lit "breaking news today")) = [].
Proof.
  apply (@analyze_without_entity_characters Analyzer.env_insertion_order
           Analyzer.default_analyzer (Py.lit "breaking news today")).
  - apply insertion_order_is_set_iteration.
  - repeat constructor.
Defined.

(** X7, witness.  The first of the two names is a piece of the text it was found in. *)
Lemma first_name_witness :
  Py.lit "John Smith" ≠ []
  ∧ ∃ before after, Demo.TWO_NAMES = before ++ Py.lit "John Smith" ++ after.
Proof.
  apply (@entities_are_pieces_of_the_text Analyzer.env_insertion_order
           Analyzer.default_analyzer Demo.TWO_NAMES (Py.lit "John Smith")).
  - apply insertion_order_is_set_iteration.
  - vm_compute. apply list_elem_of_here.
Defined.

(** X9, witness.  A word is its own cleaned form. *)
Lemma clean_word_witness :
  Filter.clean_text (Py.lit "news") = Py.lit "news".
Proof.
  apply (clean_text_keeps_clean_text (Py.lit "news")).
  repeat constructor.
Defined.

(** X15, witness.  The two webhooks in a world that answers 204. *)
Lemma webhook_witness :
  let discord :=
    Net.POST (Py.lit "https://hooks.example/1") None
      (Net.DiscordBody (Py.lit "hello")) 10 in
  let slack :=
    Net.POST (Py.lit "https://hooks.example/1") None
      (Net.SlackBody (Py.lit "hello")) 10 in
  (∃ result,
     @Messaging.send _ (@Messaging.Connector_connector Demo.long_page_world)
       (Messaging.Discord
          {| Messaging.discord_webhook_url := Some (Py.lit "https://hooks.example/1") |})
       (Py.lit "hello") ∅ []
     = (Net.Returns result, [] ++ [discord])
     ∧ match @Net.post_webhook Demo.long_page_world [] discord with
       | Net.WebhookResponse status text =>
           (Messaging.success result = true ↔ status = 200%Z ∨ status = 204%Z)
           ∧ Messaging.error_message result
             = (if bool_decide (400 ≤ status < 600)%Z then Some text else None)
           ∧ (Messaging.success result = true → Messaging.error_message result = None)
       | Net.WebhookRaised e =>
           Messaging.success result = false ∧ Messaging.error_message result = Some e
       end)
  ∧ (∃ result,
       @Messaging.send _ (@Messaging.Connector_connector Demo.long_page_world)
         (Messaging.Slack
            {| Messaging.slack_webhook_url := Some (Py.lit "https://hooks.example/1") |})
         (Py.lit "hello") ∅ []
       = (Net.Returns result, [] ++ [slack])
       ∧ match @Net.post_webhook Demo.long_page_world [] slack with
         | Net.WebhookResponse status text =>
             (Messaging.success result = true ↔ status = 200%Z)
             ∧ Messaging.error_message result
               = (if bool_decide (400 ≤ status < 600)%Z then Some text else None)
             ∧ (Messaging.success result = true → Messaging.error_message result = None)
         | Net.WebhookRaised e =>
             Messaging.success result = false ∧ Messaging.error_message result = Some e
         end).
Proof.
  apply (@webhook_status_rules Demo.long_page_world (Py.lit "https://hooks.example/1")
           (Py.lit "hello") ∅ []).
  reflexivity.
Defined.

(** X16, witness.  A LINE connector with a recipient and no token. *)
Lemma no_token_witness :
  let self :=
    {| Messaging.channel_access_token := None;
       Messaging.user_id := Some (Py.lit "U1") |} in
  let failure :=
    Messaging.failed "line" (Py.lit "LINE Channel Access Token not configured") in
  @Messaging.send _ (@Messaging.Line_connector Demo.long_page_world) self
    (Py.lit "hello") ∅ [] = (Net.Returns failure, [])
  ∧ @Messaging.send_to_group Demo.long_page_world self (Py.lit "hello") (Py.lit "G1") []
    = (Net.Returns failure, [])
  ∧ @Messaging.send_image Demo.long_page_world self (Py.lit "https://img.example/1.png")
      None ∅ [] = (Net.Returns failure, [])
  ∧ (Forall (λ opt, is_Some (opt !! "label")) (take 13 Demo.fifteen_options) →
     @Messaging.send_with_quick_reply Demo.long_page_world self (Py.lit "hello")
       Demo.fifteen_options ∅ [] = (Net.Returns failure, [])).
Proof.
  apply (@line_without_token Demo.long_page_world
           {| Messaging.channel_access_token := None;
              Messaging.user_id := Some (Py.lit "U1") |}
           (Py.lit "hello") (Py.lit "G1") (Py.lit "https://img.example/1.png") None
           Demo.fifteen_options ∅ []).
  reflexivity.
Defined.

(** X17, witness.  The recipients of a connector whose own user is U1. *)
Lemma recipient_witness :
  (Py.lit "G1" ≠ [] →
   ∃ result,
     @Messaging.send_to_group Demo.long_page_world Demo.line (Py.lit "hello")
       (Py.lit "G1") []
     = (Net.Returns result,
        [] ++ [Net.POST Messaging.PUSH_API_URL
                 (Messaging.channel_access_token Demo.line)
                 (Net.LinePush (Py.lit "G1") [Net.TextMessage (Py.lit "hello")]) 10]))
  ∧ @Messaging.send_to_group Demo.long_page_world Demo.line (Py.lit "hello") [] []
    = @Messaging.send _ (@Messaging.Line_connector Demo.long_page_world) Demo.line
        (Py.lit "hello") ∅ []
  ∧ (∀ user : Py.str,
       ({[ "user_id" := Py.lit "U2" ]} : gmap string Py.str) !! "user_id" = Some user →
       user ≠ [] →
       ∃ result,
         @Messaging.send _ (@Messaging.Line_connector Demo.long_page_world) Demo.line
           (Py.lit "hello") {[ "user_id" := Py.lit "U2" ]} []
         = (Net.Returns result,
            [] ++ [Net.POST Messaging.PUSH_API_URL
                     (Messaging.channel_access_token Demo.line)
                     (Net.LinePush user [Net.TextMessage (Py.lit "hello")]) 10]))
  ∧ (Py.truthy (Messaging.user_id Demo.line) = false →
     @Messaging.send _ (@Messaging.Line_connector Demo.long_page_world) Demo.line
       (Py.lit "hello") ∅ []
     = (Net.Returns (Messaging.failed "line" (Py.lit "LINE User ID not configured")),
        [])).
Proof.
  apply (@line_recipient Demo.long_page_world Demo.line (Py.lit "hello") (Py.lit "G1")
           {[ "user_id" := Py.lit "U2" ]} []).
  reflexivity.
Defined.

(** X18, witness.  An option with a text and no label. *)
Lemma missing_label_witness :
  @Messaging.send_with_quick_reply Demo.long_page_world Demo.line (Py.lit "Pick one")
    [ {[ "label" := Py.lit "Yes" ]}; {[ "text" := Py.lit "No" ]} ] ∅ []
  = (Net.Raises (Net.KeyError "label"), []).
Proof.
  apply (@quick_reply_missing_label Demo.long_page_world Demo.line (Py.lit "Pick one")
           [ {[ "label" := Py.lit "Yes" ]}; {[ "text" := Py.lit "No" ]} ] ∅ []).
  apply Exists_cons_tl, Exists_cons_hd. vm_compute. reflexivity.
Defined.


(** X22, witness.  The notification of the long page, through a LINE
    connector. *)
Lemma notification_text_witness :
  let filtered :=
    @Filter.extract Demo.one_paragraph Filter.default_filter
      (Crawler.html Demo.long_page_result) in
  let self := Demo.bot (Some (Py.lit "key")) (Some (Messaging.Line Demo.line)) in
  ∃ summary log2,
    @LLM.summarize _ (@LLM.Connector_connector Demo.long_page_world)
      (Main.llm self) (take 3000 (Filter.body filtered)) Demo.fetch_log
    = (Net.Returns summary, log2)
    ∧ match Net.slice_error summary with
      | Some e =>
          @Main.process Demo.long_page_world Analyzer.env_insertion_order
            Demo.one_paragraph self Demo.EXAMPLE_URL true []
          = (Net.Raises e, log2)
      | None =>
          ∃ report log3,
            @Main.process Demo.long_page_world Analyzer.env_insertion_order
              Demo.one_paragraph self Demo.EXAMPLE_URL true []
            = (Net.Returns report, log3)
            ∧ report !! "summary" = Some (Main.VDyn summary)
            ∧ (∃ result,
                 @Messaging.send _
                   (@Messaging.Connector_connector Demo.long_page_world)
                   (Messaging.Line Demo.line)
                   (Main.NEWS_PREFIX ++ Filter.title filtered ++ [10; 10]%N
                    ++ Net.format_value summary) ∅ log2
                 = (Net.Returns result, log3))
            ∧ (log3 = log2
               ∨ ∃ req, log3 = log2 ++ [req]
                        ∧ Messaging.text_of req
                          = Some (Main.NEWS_PREFIX ++ Filter.title filtered
                                  ++ [10; 10]%N ++ Net.format_value summary))
      end.
Proof.
  apply (@process_notification_text Demo.long_page_world Analyzer.env_insertion_order
           Demo.one_paragraph
           (Demo.bot (Some (Py.lit "key")) (Some (Messaging.Line Demo.line)))
           Demo.EXAMPLE_URL [] Demo.long_page_result Demo.fetch_log
           (Messaging.Line Demo.line)).
  - reflexivity.
  - reflexivity.
  - reflexivity.
Defined.


Section PipelineEdges.
Import Py Net Main.
Context `{World, Analyzer.Env, Filter.Env}.
#[local] Existing Instances LLM.Connector_connector Messaging.Connector_connector.



End PipelineEdges.

